(** * Kanban board of ghost-pm-frontend: column grouping, column reorder and
    card moves of [TaskBoard] ([components/task-board.tsx]) and the column
    reorder of [StatusSettings] ([components/project-settings/status-settings.tsx]). *)

From Stdlib Require Import ZArith.
From stdpp Require Import base list gmap strings.

Open Scope list_scope.

(* ------------------------------------------------------------------ *)
(** ** Data model ([lib/api.ts]) *)

(** [TaskStatus = "TODO" | "IN_PROGRESS" | "IN_REVIEW" | "DONE"] *)
Inductive TaskStatus := TODO | IN_PROGRESS | IN_REVIEW | DONE.

(** [interface ProjectStatus]; [position] and [isDone] are JS numbers that
    hold integers ([isDone] is 0 or 1). *)
Record ProjectStatus := mkStatus {
  ps_id : string;
  ps_projectId : string;
  ps_name : string;
  ps_slug : string;
  ps_color : string;
  ps_position : Z;
  ps_isDone : Z;
  ps_createdAt : string
}.

(** [interface Task], restricted to the fields the board reads or writes
    ([id], [status], [statusId], [projectId], [title]); the others
    (description, priority, assignee, dates, hours) are carried unchanged
    by the spread [{ ...task, statusId }] and never inspected.
    [statusId?: string | null]: [None] is [undefined] or [null]. *)
Record Task := mkTask {
  t_id : string;
  t_title : string;
  t_status : TaskStatus;
  t_statusId : option string;
  t_projectId : string
}.

(** JS truthiness of a [string | null | undefined]. *)
Definition truthy (o : option string) : bool :=
  match o with
  | Some s => negb (String.eqb s "")
  | None => false
  end.

(* ------------------------------------------------------------------ *)
(** ** Constants of [task-board.tsx] *)

Definition DEFAULT_STATUSES : list ProjectStatus := [
  mkStatus "todo" "" "TODO" "todo" "#6B7280" 0 0 "";
  mkStatus "in_progress" "" "進行中" "in_progress" "#3B82F6" 1 0 "";
  mkStatus "in_review" "" "レビュー中" "in_review" "#F59E0B" 2 0 "";
  mkStatus "done" "" "完了" "done" "#10B981" 3 1 ""
].

Definition STATUS_SLUG_MAP (s : TaskStatus) : string :=
  match s with
  | TODO => "todo"
  | IN_PROGRESS => "in_progress"
  | IN_REVIEW => "in_review"
  | DONE => "done"
  end.

(* ------------------------------------------------------------------ *)
(** ** JS array helpers *)

(** [Array.prototype.find]: first element satisfying [p]. *)
Fixpoint find {A} (p : A -> bool) (l : list A) : option A :=
  match l with
  | [] => None
  | x :: l' => if p x then Some x else find p l'
  end.

(** [Array.prototype.findIndex]; [None] is the JS result [-1]. *)
Fixpoint findIndex {A} (p : A -> bool) (l : list A) : option nat :=
  match l with
  | [] => None
  | x :: l' => if p x then Some 0 else S <$> findIndex p l'
  end.

(** [arr.splice(i, 1)] on a copy: the removed element and the rest;
    [None] when [i] is past the end (JS then yields [undefined]). *)
Fixpoint splice_remove {A} (i : nat) (l : list A) : option (A * list A) :=
  match i, l with
  | _, [] => None
  | 0, x :: l' => Some (x, l')
  | S i', x :: l' => (fun '(y, r) => (y, x :: r)) <$> splice_remove i' l'
  end.

(** [arr.splice(i, 0, x)]: insert [x] before position [i]; a start past the
    end is clamped to the length, so [x] is appended. *)
Fixpoint splice_insert {A} (i : nat) (x : A) (l : list A) : list A :=
  match i, l with
  | 0, _ => x :: l
  | S _, [] => [x]
  | S i', y :: l' => y :: splice_insert i' x l'
  end.

(** [arrayMove] of [@dnd-kit/sortable]:
<<
  const newArray = array.slice();
  newArray.splice(to < 0 ? newArray.length + to : to, 0,
                  newArray.splice(from, 1)[0]);
  return newArray;
>>
    Both call sites pass indices returned by [findIndex]; on the board they
    are checked to differ from [-1], so [from] and [to] are naturals here.
    [None] stands for the array with an [undefined] hole that JS builds when
    [from] is past the end. *)
Definition arrayMove {A} (l : list A) (from to : nat) : option (list A) :=
  (fun '(x, rest) => splice_insert to x rest) <$> splice_remove from l.

(** JS optional-chaining equality [a?.f === b?.f]: [undefined === undefined]. *)
Definition opt_string_eqb (a b : option string) : bool :=
  match a, b with
  | Some x, Some y => String.eqb x y
  | None, None => true
  | _, _ => false
  end.

(** [s.startsWith(p)] *)
Definition startsWith (p s : string) : bool := String.prefix p s.

(** [s.replace(p, "")], used only after [s.startsWith(p)] has been checked,
    where the first occurrence of [p] is the prefix. *)
Definition dropPrefix (p s : string) : string :=
  String.substring (String.length p) (String.length s - String.length p) s.

(* ------------------------------------------------------------------ *)
(** ** The board's state and its column list *)

(** The [statuses] prop, the [localStatuses] state of [TaskBoard], and the
    [tasks] state of the project page, which [TaskBoard] updates through
    [onTaskUpdate]. *)
Record Board := mkBoard {
  b_statuses : list ProjectStatus;
  b_localStatuses : list ProjectStatus;
  b_tasks : list Task
}.

(** [const columns = useMemo(...)]. *)
Definition columns (statuses localStatuses : list ProjectStatus) : list ProjectStatus :=
  let baseStatuses := if Nat.ltb 0 (length statuses) then statuses else DEFAULT_STATUSES in
  if Nat.ltb 0 (length localStatuses)
     && opt_string_eqb (ps_projectId <$> head localStatuses)
                       (ps_projectId <$> head baseStatuses)
  then localStatuses
  else baseStatuses.

Definition board_columns (b : Board) : list ProjectStatus :=
  columns (b_statuses b) (b_localStatuses b).

(** The project page's [handleTaskUpdate], passed as [onTaskUpdate]:
    [setTasks(prev => prev.map(t => t.id === updatedTask.id ? updatedTask : t))]. *)
Definition handleTaskUpdate (updatedTask : Task) (tasks : list Task) : list Task :=
  map (fun t => if String.eqb (t_id t) (t_id updatedTask) then updatedTask else t) tasks.

(** [{ ...task, statusId: targetStatusId }] *)
Definition withStatusId (task : Task) (sid : string) : Task :=
  {| t_id := t_id task; t_title := t_title task; t_status := t_status task;
     t_statusId := Some sid; t_projectId := t_projectId task |}.

(* ------------------------------------------------------------------ *)
(** ** [tasksByStatusId] *)

(** Lines 241-246: [let statusId = task.statusId; if (!statusId) { ...
    statusId = matchingStatus?.id || columns[0]?.id; }]. *)
Definition resolveStatusId (cols : list ProjectStatus) (task : Task) : option string :=
  if truthy (t_statusId task) then t_statusId task
  else
    let slug := STATUS_SLUG_MAP (t_status task) in
    let matchingStatus := find (fun s => String.eqb (ps_slug s) slug) cols in
    if truthy (ps_id <$> matchingStatus) then ps_id <$> matchingStatus
    else ps_id <$> head cols.

(** [result[k]!.push(task)] on a key that holds an array. *)
Definition push (k : string) (task : Task) (result : gmap string (list Task))
  : gmap string (list Task) :=
  match result !! k with
  | Some b => <[k := b ++ [task]]> result
  | None => result
  end.

(** Lines 248-252: [if (statusId && result[statusId]) push there,
    else if (columns[0]) result[columns[0].id]?.push(task)].
    An array, even an empty one, is truthy, so [result[statusId]] tests
    that the key is present. *)
Definition groupTask (cols : list ProjectStatus) (result : gmap string (list Task))
    (task : Task) : gmap string (list Task) :=
  let statusId := resolveStatusId cols task in
  let fallback :=
    match head cols with
    | Some c0 => push (ps_id c0) task result
    | None => result
    end in
  match statusId with
  | Some sid =>
      if truthy statusId && bool_decide (is_Some (result !! sid))
      then push sid task result else fallback
  | None => fallback
  end.

(** [columns.forEach((status) => { result[status.id] = []; })] *)
Definition initResult (cols : list ProjectStatus) : gmap string (list Task) :=
  foldl (fun r s => <[ps_id s := []]> r) ∅ cols.

Definition tasksByStatusId (cols : list ProjectStatus) (tasks : list Task)
  : gmap string (list Task) :=
  foldl (groupTask cols) (initResult cols) tasks.

(** The bucket a card lands in: its resolved identifier when that is a
    column identifier, the first column otherwise. *)
Definition bucketOf (cols : list ProjectStatus) (task : Task) : option string :=
  let statusId := resolveStatusId cols task in
  match statusId with
  | Some sid =>
      if truthy statusId && bool_decide (sid ∈ map ps_id cols) then Some sid
      else ps_id <$> head cols
  | None => ps_id <$> head cols
  end.

(* ------------------------------------------------------------------ *)
(** ** [handleDragEnd] of [TaskBoard] *)

(** [activeType], set by [handleDragStart] and read from the render the
    handler closes over. *)
Inductive DragType := DragTask | DragColumn.

(** A persistence request issued by the handler, with what its [catch]
    block restores: the [columns] or the [task] the handler captured. *)
Inductive Pending :=
  | ReorderRequest (projectId : string) (statusIds : list string)
      (snapshot : list ProjectStatus)
  | StatusRequest (taskId statusId : string) (snapshot : Task).

(** Lines 377-393: the drop target of a card. *)
Definition targetStatusIdOf (cols : list ProjectStatus) (tasks : list Task)
    (overId : string) : option string :=
  if startsWith "droppable-" overId then Some (dropPrefix "droppable-" overId)
  else if startsWith "column-" overId then Some (dropPrefix "column-" overId)
  else
    match find (fun t => String.eqb (t_id t) overId) tasks with
    | Some overTask =>
        (* [overTask.statusId || null] *)
        let target := if truthy (t_statusId overTask) then t_statusId overTask else None in
        if truthy target then target
        else
          let slug := STATUS_SLUG_MAP (t_status overTask) in
          let matchingStatus := find (fun s => String.eqb (ps_slug s) slug) cols in
          if truthy (ps_id <$> matchingStatus) then ps_id <$> matchingStatus else None
    | None => None
    end.

(** Lines 395-400: the card's current column as the handler resolves it. *)
Definition currentStatusIdOf (cols : list ProjectStatus) (task : Task) : option string :=
  if truthy (t_statusId task) then t_statusId task
  else
    let slug := STATUS_SLUG_MAP (t_status task) in
    let matchingStatus := find (fun s => String.eqb (ps_slug s) slug) cols in
    if truthy (ps_id <$> matchingStatus) then ps_id <$> matchingStatus else None.

(** The synchronous part of [handleDragEnd], up to its [await]: the board
    after the optimistic update and the request issued, if any.  The
    resets of [activeId], [activeType] and [overColumnId] (drag-gesture
    state) are left out.  The project page, the only caller, passes no
    [onStatusesReorder]. *)
Definition handleDragEnd (activeType : option DragType) (activeId : string)
    (overId : option string) (b : Board) : Board * option Pending :=
  let cols := board_columns b in
  match overId with
  | None => (b, None)
  | Some over =>
    if startsWith "column-" activeId && startsWith "column-" over then
      let activeColumnId := dropPrefix "column-" activeId in
      let overColumnId := dropPrefix "column-" over in
      if negb (String.eqb activeColumnId overColumnId) then
        match findIndex (fun c => String.eqb (ps_id c) activeColumnId) cols,
              findIndex (fun c => String.eqb (ps_id c) overColumnId) cols with
        | Some oldIndex, Some newIndex =>
            match arrayMove cols oldIndex newIndex with
            | Some newColumns =>
                let b' := mkBoard (b_statuses b) newColumns (b_tasks b) in
                let projectId := ps_projectId <$> head cols in
                match projectId with
                | Some pid =>
                    if truthy projectId
                    then (b', Some (ReorderRequest pid (map ps_id newColumns) cols))
                    else (b', None)
                | None => (b', None)
                end
            (* unreachable: [oldIndex] is an index of [cols] *)
            | None => (b, None)
            end
        | _, _ => (b, None)
        end
      else (b, None)
    else
      match activeType with
      | Some DragTask =>
          let taskId := activeId in
          match find (fun t => String.eqb (t_id t) taskId) (b_tasks b) with
          | None => (b, None)
          | Some task =>
              let targetStatusId := targetStatusIdOf cols (b_tasks b) over in
              let currentStatusId := currentStatusIdOf cols task in
              match targetStatusId with
              | Some target =>
                  if truthy targetStatusId
                     && negb (opt_string_eqb targetStatusId currentStatusId)
                  then
                    (mkBoard (b_statuses b) (b_localStatuses b)
                             (handleTaskUpdate (withStatusId task target) (b_tasks b)),
                     Some (StatusRequest taskId target task))
                  else (b, None)
              | None => (b, None)
              end
          end
      | _ => (b, None)
      end
  end.

(** Resumption after the [await]: success does nothing; failure runs the
    [catch] block, [setLocalStatuses(columns)] or [onTaskUpdate(task)],
    on the board as it is when the response arrives. *)
Definition complete (p : Pending) (ok : bool) (b : Board) : Board :=
  if ok then b
  else
    match p with
    | ReorderRequest _ _ snapshot => mkBoard (b_statuses b) snapshot (b_tasks b)
    | StatusRequest _ _ task =>
        mkBoard (b_statuses b) (b_localStatuses b) (handleTaskUpdate task (b_tasks b))
    end.

(* ------------------------------------------------------------------ *)
(** ** [handleDragEnd] of [StatusSettings] *)

(** The component's [statuses] prop is the settings page's state, which
    [onStatusesUpdate] replaces.  The sortable items are the [statuses]
    identifiers, so both [findIndex] calls find their item; the [None]
    branches are unreachable. *)
Definition settingsDragEnd (projectId : string) (activeId : string)
    (overId : option string) (statuses : list ProjectStatus)
  : list ProjectStatus * option Pending :=
  match overId with
  | Some over =>
      if negb (String.eqb activeId over) then
        match findIndex (fun s => String.eqb (ps_id s) activeId) statuses,
              findIndex (fun s => String.eqb (ps_id s) over) statuses with
        | Some oldIndex, Some newIndex =>
            match arrayMove statuses oldIndex newIndex with
            | Some newStatuses =>
                (newStatuses, Some (ReorderRequest projectId (map ps_id newStatuses) statuses))
            | None => (statuses, None)
            end
        | _, _ => (statuses, None)
        end
      else (statuses, None)
  | None => (statuses, None)
  end.

(** The settings page's failure path: [onStatusesUpdate(statuses)]. *)
Definition settingsComplete (p : Pending) (ok : bool) (current : list ProjectStatus)
  : list ProjectStatus :=
  if ok then current
  else match p with
       | ReorderRequest _ _ snapshot => snapshot
       | StatusRequest _ _ _ => current
       end.

(** Local column states of a board whose [statuses] prop has been empty
    since it mounted: [localStatuses] starts empty and changes only through
    [handleDragEnd] and the [catch] block of a request issued by an earlier
    [handleDragEnd], resumed at any later such state. *)
Inductive default_reach : list ProjectStatus -> Prop :=
  | dr_mount : default_reach []
  | dr_drag l ts aty a ov b' p :
      default_reach l ->
      handleDragEnd aty a ov (mkBoard [] l ts) = (b', p) ->
      default_reach (b_localStatuses b')
  | dr_complete l0 ts0 aty a ov b' p l ts ok :
      default_reach l0 ->
      handleDragEnd aty a ov (mkBoard [] l0 ts0) = (b', Some p) ->
      default_reach l ->
      default_reach (b_localStatuses (complete p ok (mkBoard [] l ts))).

(** Sample data: a project ["p1"] whose columns have the slugs [todo],
    [in_progress] and [done] (no [in_review] column), a card with no
    [statusId] and the legacy status [IN_REVIEW], and a card in [todo]. *)
Definition sample_status (id slug : string) (pos isDone : Z) : ProjectStatus :=
  mkStatus id "p1" id slug "#6B7280" pos isDone "".

Definition sample_cols : list ProjectStatus :=
  [sample_status "todo" "todo" 0 0; sample_status "in_progress" "in_progress" 1 0;
   sample_status "done" "done" 2 1].

Definition legacy_card : Task := mkTask "c1" "legacy" IN_REVIEW None "p1".

Definition todo_card : Task := mkTask "c2" "todo card" TODO (Some "todo") "p1".

Definition sample_board : Board :=
  mkBoard sample_cols sample_cols [legacy_card; todo_card].

(** Dragging the [todo] column header onto [done]. *)
Definition sample_reorder : Board * option Pending :=
  handleDragEnd (Some DragColumn) "column-todo" (Some "column-done") sample_board.

(** The board with no statuses yet, showing the default columns. *)
Definition default_board : Board := mkBoard [] [] [].

(** Dragging the default [todo] header onto [in_progress]. *)
Definition default_reorder : Board * option Pending :=
  handleDragEnd (Some DragColumn) "column-todo" (Some "column-in_progress") default_board.

(** Dragging the card [c2] onto the [done] column. *)
Definition sample_move : Board * option Pending :=
  handleDragEnd (Some DragTask) "c2" (Some "droppable-done") sample_board.

(** The keys of [result] are the column identifiers. *)
Definition keys_ok (cols : list ProjectStatus) (r : gmap string (list Task)) : Prop :=
  forall k, is_Some (r !! k) <-> k ∈ map ps_id cols.

(** The number of cards over all buckets of [result]. *)
Definition total (r : gmap string (list Task)) : nat :=
  map_fold (fun _ b acc => length b + acc) 0 r.

(* ------------------------------------------------------------------ *)
(** ** Other parts of [TaskBoard] *)

(** [handleDragOver] (lines 298-324): the value [overColumnId] takes next.
    [prev] is its current value, which the handler leaves in place when the
    pointer is over an identifier that is neither a droppable, a column nor
    a card of [tasks]. *)
Definition handleDragOver (cols : list ProjectStatus) (tasks : list Task)
    (overId : option string) (prev : option string) : option string :=
  match overId with
  | None => None
  | Some over =>
    if startsWith "droppable-" over then Some (dropPrefix "droppable-" over)
    else if startsWith "column-" over then Some (dropPrefix "column-" over)
    else
      match find (fun t => String.eqb (t_id t) over) tasks with
      | Some overTask =>
          if truthy (t_statusId overTask) then t_statusId overTask
          else
            let slug := STATUS_SLUG_MAP (t_status overTask) in
            let matchingStatus := find (fun s => String.eqb (ps_slug s) slug) cols in
            (* [matchingStatus?.id || null] *)
            if truthy (ps_id <$> matchingStatus) then ps_id <$> matchingStatus else None
      | None => prev
      end
  end.

(** Line 436: [isOver={overColumnId === status.id && activeType === "task"}]. *)
Definition isOver (overColumnId : option string) (activeType : option DragType)
    (status : ProjectStatus) : bool :=
  opt_string_eqb overColumnId (Some (ps_id status))
  && match activeType with Some DragTask => true | _ => false end.

(** Lines 431-439: the cards each rendered column receives,
    [tasksByStatusId[status.id] || []]. *)
Definition renderedColumns (cols : list ProjectStatus) (tasks : list Task)
  : list (list Task) :=
  let result := tasksByStatusId cols tasks in
  map (fun status => default [] (result !! ps_id status)) cols.

(** A new [statuses] prop, once the [useMemo] of lines 226-230 has run:
    a non-empty list also replaces [localStatuses]. *)
Definition receiveStatuses (statuses : list ProjectStatus) (b : Board) : Board :=
  mkBoard statuses
    (if Nat.ltb 0 (length statuses) then statuses else b_localStatuses b)
    (b_tasks b).

(* ------------------------------------------------------------------ *)
(** ** The other [tasks] handlers of the project page
    ([app/[teamSlug]/[projectSlug]/page.tsx]) *)

(** [handleTaskCreate]: [setTasks(prev => [...prev, task])]. *)
Definition handleTaskCreate (task : Task) (tasks : list Task) : list Task :=
  tasks ++ [task].

(** [handleTaskDelete]: [setTasks(prev => prev.filter(t => t.id !== taskId))]. *)
Definition handleTaskDelete (taskId : string) (tasks : list Task) : list Task :=
  List.filter (fun t => negb (String.eqb (t_id t) taskId)) tasks.

(* ------------------------------------------------------------------ *)
(** ** The other handlers of [StatusSettings] *)

(** [interface EditingStatus] *)
Record EditingStatus := mkEditing {
  es_id : string;
  es_name : string;
  es_color : string;
  es_isDone : bool
}.

(** [handleEdit] (lines 250-257): the [editingStatus] it sets. *)
Definition handleEdit (status : ProjectStatus) : EditingStatus :=
  mkEditing (ps_id status) (ps_name status) (ps_color status) (Z.eqb (ps_isDone status) 1).

(** The body [handleSaveEdit] passes to [api.updateStatus] (lines 264-268). *)
Record UpdateStatusInput := mkUpdateInput {
  ui_name : string;
  ui_color : string;
  ui_isDone : Z
}.

Definition updateStatusInput (e : EditingStatus) : UpdateStatusInput :=
  mkUpdateInput (es_name e) (es_color e) (if es_isDone e then 1 else 0).

(** [handleSaveEdit] (lines 259-278): the [statuses] passed to
    [onStatusesUpdate] (the prop itself when it is not called) and the next
    [editingStatus].  [updated] is the value [api.updateStatus] resolves
    to, [None] when it rejects. *)
Definition handleSaveEdit (editingStatus : option EditingStatus)
    (updated : option ProjectStatus) (statuses : list ProjectStatus)
  : list ProjectStatus * option EditingStatus :=
  match editingStatus with
  | None => (statuses, None)
  | Some e =>
      match updated with
      | Some u =>
          (map (fun s => if String.eqb (ps_id s) (es_id e) then u else s) statuses, None)
      | None => (statuses, Some e)
      end
  end.

(** [handleDelete] (lines 311-327): [confirmed] is the answer to [confirm],
    [ok] whether [api.deleteStatus] resolves. *)
Definition handleDelete (statusId : string) (confirmed ok : bool)
    (statuses : list ProjectStatus) : list ProjectStatus :=
  match find (fun s => String.eqb (ps_id s) statusId) statuses with
  | None => statuses
  | Some _ =>
      if confirmed && ok
      then List.filter (fun s => negb (String.eqb (ps_id s) statusId)) statuses
      else statuses
  end.

(** *** The slug of a new status (lines 289-296)

    The name is a JS string: a list of UTF-16 code units. *)

(** [[a-z0-9]] *)
Definition isLowerAlnum (c : N) : bool :=
  ((97 <=? c) && (c <=? 122))%N || ((48 <=? c) && (c <=? 57))%N.

(** ["_"] *)
Definition UNDERSCORE : N := 95.

(** [.replace(/[^a-z0-9]+/g, "_")]: every maximal run of code units
    outside [[a-z0-9]] becomes one ["_"]; [inRun] tells whether the
    previous code unit belongs to such a run. *)
Fixpoint replaceNonAlnumRuns (inRun : bool) (s : list N) : list N :=
  match s with
  | [] => []
  | c :: s' =>
      if isLowerAlnum c then c :: replaceNonAlnumRuns false s'
      else if inRun then replaceNonAlnumRuns true s'
      else UNDERSCORE :: replaceNonAlnumRuns true s'
  end.

(** [.replace(/^_|_$/g, "")]: a leading ["_"] is removed, then a last
    ["_"] that follows it. *)
Definition stripEdgeUnderscores (s : list N) : list N :=
  let s1 := match s with
            | c :: r => if N.eqb c UNDERSCORE then r else s
            | [] => []
            end in
  match last s1 with
  | Some c => if N.eqb c UNDERSCORE then removelast s1 else s1
  | None => s1
  end.

(** Lines 289-292.  [toLowerCase] is [String.prototype.toLowerCase], whose
    Unicode case mapping is left as a parameter. *)
Definition slugOf (toLowerCase : list N -> list N) (name : list N) : list N :=
  stripEdgeUnderscores (replaceNonAlnumRuns false (toLowerCase name)).

(** ["status_"] *)
Definition STATUS_PREFIX : list N := [115; 116; 97; 116; 117; 115; 95]%N.

(** [slug || `status_${Date.now()}`]; [now] is the decimal rendering of
    [Date.now()]. *)
Definition createSlug (toLowerCase : list N -> list N) (now : list N) (name : list N)
  : list N :=
  match slugOf toLowerCase name with
  | [] => STATUS_PREFIX ++ now
  | slug => slug
  end.

(** The code units [String.prototype.trim] removes: WhiteSpace (tab,
    vertical tab, form feed, ZWNBSP and the space separators Zs) and
    LineTerminator. *)
Definition isJsWhitespace (c : N) : bool :=
  existsb (N.eqb c)
    [9; 10; 11; 12; 13; 32; 160; 5760; 8192; 8193; 8194; 8195; 8196; 8197;
     8198; 8199; 8200; 8201; 8202; 8232; 8233; 8239; 8287; 12288; 65279]%N.

(** The body [handleCreate] passes to [api.createStatus] (lines 294-300). *)
Record CreateStatusInput := mkCreateInput {
  ci_name : list N;
  ci_slug : list N;
  ci_color : string;
  ci_isDone : Z;
  ci_position : Z
}.

(** [handleCreate] (lines 284-300): the request it sends, [None] when it
    returns at [if (!newStatus.name.trim()) return;]. *)
Definition handleCreate (toLowerCase : list N -> list N) (now : list N)
    (name : list N) (color : string) (isDone : bool) (statuses : list ProjectStatus)
  : option CreateStatusInput :=
  if forallb isJsWhitespace name then None
  else Some (mkCreateInput name (createSlug toLowerCase now name) color
                           (if isDone then 1 else 0) (Z.of_nat (length statuses))).

(** [toLowerCase] on code units below 128, for the examples. *)
Definition asciiLower (s : list N) : list N :=
  map (fun c => if ((65 <=? c) && (c <=? 90))%N then (c + 32)%N else c) s.

(* ================================================================== *)
(** * Properties *)

(** ** [splice_remove], [splice_insert] and [arrayMove] *)

Section ArrayMove.
Context {A : Type}.
Implicit Types (l r : list A) (x : A).

Lemma splice_remove_lookup l i x :
  l !! i = Some x -> splice_remove i l = Some (x, delete i l).
Proof.
  revert i; induction l as [|y l IH]; intros [|i] H; simpl in *; try discriminate.
  - by injection H as ->.
  - by rewrite (IH i H).
Qed.

Lemma splice_remove_Some l i x r :
  splice_remove i l = Some (x, r) -> l !! i = Some x /\ r = delete i l.
Proof.
  revert i r; induction l as [|y l IH]; intros [|i] r H; simpl in *; try discriminate.
  - by injection H as -> ->.
  - destruct (splice_remove i l) as [[z r']|] eqn:E; simpl in H; [|discriminate].
    injection H as -> <-. destruct (IH i r' E) as [? ->]. done.
Qed.

Lemma splice_insert_lookup r i x : i <= length r -> splice_insert i x r !! i = Some x.
Proof.
  revert i; induction r as [|y r IH]; intros [|i] Hi; simpl in *.
  - done.
  - lia.
  - done.
  - apply IH; lia.
Qed.

Lemma splice_insert_delete r i x : i <= length r -> delete i (splice_insert i x r) = r.
Proof.
  revert i; induction r as [|y r IH]; intros [|i] Hi; simpl in *.
  - done.
  - lia.
  - done.
  - rewrite IH; [done | lia].
Qed.

Lemma splice_insert_length r i x : length (splice_insert i x r) = S (length r).
Proof.
  revert i; induction r as [|y r IH]; intros [|i]; simpl; [done..|].
  by rewrite IH.
Qed.

Lemma splice_insert_lookup_delete l i x :
  l !! i = Some x -> splice_insert i x (delete i l) = l.
Proof.
  revert i; induction l as [|y l IH]; intros [|i] H; simpl in *; try discriminate.
  - by injection H as ->.
  - by rewrite (IH i H).
Qed.

Lemma splice_insert_perm r i x : splice_insert i x r ≡ₚ x :: r.
Proof.
  revert i; induction r as [|y r IH]; intros [|i]; simpl; [done..|].
  rewrite IH. apply Permutation_swap.
Qed.

Lemma splice_remove_perm l i x r : splice_remove i l = Some (x, r) -> l ≡ₚ x :: r.
Proof.
  intros H. apply splice_remove_Some in H as [Hl ->].
  rewrite <- (splice_insert_lookup_delete l i x Hl) at 1.
  apply splice_insert_perm.
Qed.

Lemma arrayMove_Some l i j x :
  l !! i = Some x -> arrayMove l i j = Some (splice_insert j x (delete i l)).
Proof. intros H. unfold arrayMove. by rewrite (splice_remove_lookup l i x H). Qed.

Lemma arrayMove_perm l i j l' : arrayMove l i j = Some l' -> l' ≡ₚ l.
Proof.
  unfold arrayMove. destruct (splice_remove i l) as [[x r]|] eqn:E; simpl; [|discriminate].
  intros [= <-]. rewrite splice_insert_perm. symmetry. by eapply splice_remove_perm.
Qed.

Lemma arrayMove_cons_inv l i j l' : arrayMove l i j = Some l' -> l <> [] /\ l' <> [].
Proof.
  intros H. pose proof (arrayMove_perm _ _ _ _ H) as HP.
  destruct l as [|y l]; [unfold arrayMove in H; destruct i; simpl in H; discriminate|].
  split; [done|]. intros ->. apply Permutation_nil in HP. discriminate.
Qed.

End ArrayMove.

Lemma arrayMove_lookup_valid {A} (l : list A) (s d : nat) (x : A) :
  l !! s = Some x -> d < length l ->
  exists l', arrayMove l s d = Some l' /\ l' !! d = Some x /\
             delete d l' = delete s l /\ length l' = length l.
Proof.
  intros Hs Hd. exists (splice_insert d x (delete s l)).
  assert (Hlen : length (delete s l) = length l - 1) by (apply length_delete; by eexists).
  pose proof (lookup_lt_Some _ _ _ Hs).
  split; [by apply arrayMove_Some|].
  split; [apply splice_insert_lookup; lia|].
  split; [apply splice_insert_delete; lia|].
  rewrite splice_insert_length. lia.
Qed.

(** ** [tasksByStatusId] *)

Section Grouping.
Variable cols : list ProjectStatus.

Lemma initResult_foldl (r0 : gmap string (list Task)) (cs : list ProjectStatus) k :
  foldl (fun r s => <[ps_id s := []]> r) r0 cs !! k =
  if bool_decide (k ∈ map ps_id cs) then Some [] else r0 !! k.
Proof.
  revert r0; induction cs as [|c cs IH]; intros r0; simpl.
  - done.
  - rewrite IH, lookup_insert.
    repeat first [case_bool_decide | case_decide]; rewrite ?elem_of_cons in *;
      naive_solver.
Qed.

Lemma initResult_lookup k :
  initResult cols !! k = if bool_decide (k ∈ map ps_id cols) then Some [] else None.
Proof. unfold initResult. rewrite initResult_foldl. by case_bool_decide. Qed.

Lemma bucketOf_elem t k : bucketOf cols t = Some k -> k ∈ map ps_id cols.
Proof.
  unfold bucketOf. destruct (resolveStatusId cols t) as [sid|].
  - destruct (truthy (Some sid) && bool_decide (sid ∈ map ps_id cols)) eqn:E.
    + intros [= <-]. apply andb_prop in E as [_ E]. by apply bool_decide_eq_true in E.
    + destruct cols as [|c cs]; simpl; [discriminate|]. intros [= <-]. set_solver.
  - destruct cols as [|c cs]; simpl; [discriminate|]. intros [= <-]. set_solver.
Qed.

Lemma bucketOf_nonempty t : cols <> [] -> exists k, bucketOf cols t = Some k.
Proof.
  intros Hc. unfold bucketOf. destruct cols as [|c cs]; [done|].
  destruct (resolveStatusId (c :: cs) t) as [sid|]; [|by eexists].
  destruct (_ && _); by eexists.
Qed.

Lemma push_keys k t r : keys_ok cols r -> keys_ok cols (push k t r).
Proof.
  unfold keys_ok, push. intros H k'. destruct (r !! k) eqn:E; [|done].
  rewrite lookup_insert. case_decide; subst; [|done].
  rewrite <- H, E. split; intros; by eexists.
Qed.

Lemma groupTask_push r t :
  keys_ok cols r ->
  groupTask cols r t = match bucketOf cols t with Some k => push k t r | None => r end.
Proof.
  intros Hk. unfold groupTask, bucketOf.
  destruct (resolveStatusId cols t) as [sid|].
  - assert (bool_decide (is_Some (r !! sid)) = bool_decide (sid ∈ map ps_id cols)) as ->.
    { apply bool_decide_ext, Hk. }
    destruct (_ && _); [done|]. by destruct cols.
  - by destruct cols.
Qed.

Lemma foldl_groupTask_lookup (r : gmap string (list Task)) (ts : list Task) k :
  keys_ok cols r ->
  foldl (groupTask cols) r ts !! k =
    (fun b => b ++ filter (fun t => bucketOf cols t = Some k) ts) <$> r !! k.
Proof.
  revert r; induction ts as [|t ts IH]; intros r Hk; simpl.
  - destruct (r !! k); simpl; by rewrite ?app_nil_r.
  - rewrite groupTask_push by done.
    destruct (bucketOf cols t) as [k0|] eqn:Eb.
    + pose proof (bucketOf_elem _ _ Eb) as Hin.
      apply Hk in Hin as [b0 Hb0].
      rewrite IH by (by apply push_keys).
      unfold push. rewrite Hb0, lookup_insert.
      case_decide as Heq.
      * subst k0. rewrite Hb0. simpl. rewrite filter_cons_True by done.
        by rewrite <- app_assoc.
      * rewrite filter_cons_False by congruence. done.
    + rewrite IH by done. rewrite filter_cons_False by congruence. done.
Qed.

Lemma tasksByStatusId_lookup (tasks : list Task) k :
  tasksByStatusId cols tasks !! k =
    if bool_decide (k ∈ map ps_id cols)
    then Some (filter (fun t => bucketOf cols t = Some k) tasks) else None.
Proof.
  unfold tasksByStatusId. rewrite foldl_groupTask_lookup.
  - rewrite initResult_lookup. by case_bool_decide.
  - intros k'. rewrite initResult_lookup. case_bool_decide as Hd; split; intros H;
      [done | by eexists | by destruct H | done].
Qed.

Lemma tasksByStatusId_keys (tasks : list Task) : keys_ok cols (tasksByStatusId cols tasks).
Proof.
  intros k. rewrite tasksByStatusId_lookup. case_bool_decide as Hd; split; intros H;
    [done | by eexists | by destruct H | done].
Qed.

End Grouping.

Lemma total_insert_existing (r : gmap string (list Task)) k b t :
  r !! k = Some b -> total (<[k := b ++ [t]]> r) = S (total r).
Proof.
  intros Hb. unfold total.
  rewrite <- (insert_delete_id r k b Hb) at 2.
  rewrite <- insert_delete_eq.
  rewrite !map_fold_insert_L; try (intros; lia); try apply lookup_delete_eq.
  rewrite length_app. simpl. lia.
Qed.

Lemma total_empty_buckets (r : gmap string (list Task)) :
  (forall k b, r !! k = Some b -> b = []) -> total r = 0.
Proof.
  induction r as [|i x m Hi IH] using map_ind; intros Hall; unfold total.
  - apply map_fold_empty.
  - rewrite map_fold_insert_L; [|intros; lia|done].
    rewrite (Hall i x) by apply lookup_insert_eq. simpl.
    apply IH. intros k b Hk. apply (Hall k).
    rewrite lookup_insert_ne; [done|]. intros ->. congruence.
Qed.

Lemma total_foldl_groupTask (cols : list ProjectStatus) (r : gmap string (list Task))
    (ts : list Task) :
  cols <> [] -> keys_ok cols r ->
  total (foldl (groupTask cols) r ts) = total r + length ts.
Proof.
  intros Hc. revert r; induction ts as [|t ts IH]; intros r Hk; simpl; [lia|].
  rewrite groupTask_push by done.
  destruct (bucketOf_nonempty cols t Hc) as [k0 Eb]. rewrite Eb.
  pose proof (bucketOf_elem _ _ _ Eb) as Hin. apply Hk in Hin as [b0 Hb0].
  rewrite IH by (by apply push_keys).
  unfold push. rewrite Hb0, (total_insert_existing r k0 b0 t Hb0). lia.
Qed.

(** ** The handlers *)

Lemma truthy_Some s : truthy (Some s) = true <-> s <> "".
Proof. unfold truthy. rewrite negb_true_iff. apply String.eqb_neq. Qed.

Lemma handleDragEnd_shape aty a ov b b' p :
  handleDragEnd aty a ov b = (b', p) ->
  b_statuses b' = b_statuses b /\
  (b_localStatuses b' = b_localStatuses b \/
   exists i j, arrayMove (board_columns b) i j = Some (b_localStatuses b')) /\
  (forall pid ids snap, p = Some (ReorderRequest pid ids snap) ->
     snap = board_columns b /\ snap <> [] /\
     ps_projectId <$> head snap = Some pid /\ pid <> "" /\
     exists i j, arrayMove snap i j = Some (b_localStatuses b')).
Proof.
  unfold handleDragEnd. intros H.
  repeat case_match; simplify_eq/=;
    repeat split; try (by left); try (by right; eauto); intros; simplify_eq.
  - done.
  - eapply proj1, arrayMove_cons_inv. eassumption.
  - done.
  - by apply truthy_Some.
  - eauto.
Qed.

(** Putting back a column list the board showed shows it again. *)
Lemma columns_restore (statuses localStatuses : list ProjectStatus) :
  columns statuses localStatuses <> [] ->
  columns statuses (columns statuses localStatuses) = columns statuses localStatuses.
Proof.
  intros _. unfold columns.
  set (base := if Nat.ltb 0 (length statuses) then statuses else DEFAULT_STATUSES).
  destruct (Nat.ltb 0 (length localStatuses)
            && opt_string_eqb (ps_projectId <$> head localStatuses)
                              (ps_projectId <$> head base)) eqn:E.
  - by rewrite E.
  - by case_match.
Qed.

Lemma settingsDragEnd_request projectId a ov statuses statuses' p :
  settingsDragEnd projectId a ov statuses = (statuses', Some p) ->
  exists ids, p = ReorderRequest projectId ids statuses.
Proof. unfold settingsDragEnd. intros H. repeat case_match; simplify_eq; eauto. Qed.

(** A failed request restores the snapshot taken when it was issued,
    whatever the local column state is when the failure arrives. *)
Lemma reorder_revert_to_snapshot aty a ov b b' pid ids snap b2 :
  handleDragEnd aty a ov b = (b', Some (ReorderRequest pid ids snap)) ->
  b_statuses b2 = b_statuses b ->
  board_columns (complete (ReorderRequest pid ids snap) false b2) = board_columns b.
Proof.
  intros H Hst. destruct (handleDragEnd_shape _ _ _ _ _ _ H) as (_ & _ & Hreq).
  destruct (Hreq pid ids snap eq_refl) as (-> & Hne & _).
  unfold complete, board_columns. simpl. rewrite Hst.
  by apply columns_restore.
Qed.

Lemma find_handleTaskUpdate (tasks : list Task) (a : string) (task u : Task) :
  find (fun t => String.eqb (t_id t) a) tasks = Some task -> t_id u = a ->
  find (fun t => String.eqb (t_id t) a) (handleTaskUpdate u tasks) = Some u.
Proof.
  intros Hf Hu. induction tasks as [|x tasks IH]; simpl in *; [discriminate|].
  rewrite Hu. destruct (String.eqb (t_id x) a) eqn:E; simpl.
  - rewrite <- Hu, String.eqb_refl. done.
  - rewrite E. by apply IH.
Qed.

Lemma currentStatusIdOf_resolve cols task x :
  currentStatusIdOf cols task = Some x -> resolveStatusId cols task = Some x.
Proof.
  unfold currentStatusIdOf, resolveStatusId.
  destruct (truthy (t_statusId task)); [done|].
  destruct (truthy _); [done|discriminate].
Qed.

(** A card dropped on a target other than its resolved column: the board
    after the synchronous part and the request issued. *)
Lemma handleDragEnd_move b a ov task target :
  find (fun t => String.eqb (t_id t) a) (b_tasks b) = Some task ->
  startsWith "column-" a && startsWith "column-" ov = false ->
  targetStatusIdOf (board_columns b) (b_tasks b) ov = Some target ->
  target <> "" ->
  resolveStatusId (board_columns b) task <> Some target ->
  handleDragEnd (Some DragTask) a (Some ov) b =
    (mkBoard (b_statuses b) (b_localStatuses b)
             (handleTaskUpdate (withStatusId task target) (b_tasks b)),
     Some (StatusRequest a target task)).
Proof.
  intros Hf Hcol Ht Hne Hres. unfold handleDragEnd. cbv zeta.
  rewrite Hcol, Hf, Ht.
  assert (Hneq : opt_string_eqb (Some target) (currentStatusIdOf (board_columns b) task) = false).
  { destruct (currentStatusIdOf (board_columns b) task) as [x|] eqn:Ec; [|done].
    simpl. apply String.eqb_neq. intros ->. by apply Hres, currentStatusIdOf_resolve. }
  rewrite Hneq. apply truthy_Some in Hne. by rewrite Hne.
Qed.

(** ** The default columns *)

Lemma default_projectId c : c ∈ DEFAULT_STATUSES -> ps_projectId c = "".
Proof.
  intros H%list_elem_of_In. simpl in H.
  repeat destruct H as [<-|H]; [done..|contradiction].
Qed.

Lemma columns_empty_statuses (l : list ProjectStatus) :
  l = [] \/ l ≡ₚ DEFAULT_STATUSES ->
  columns [] l ≡ₚ DEFAULT_STATUSES /\ (l <> [] -> columns [] l = l).
Proof.
  intros [->|HP]; [split; [done | by intros []]|].
  destruct l as [|c l'].
  - apply Permutation_nil in HP. discriminate.
  - assert (Hc : ps_projectId c = "").
    { apply default_projectId. rewrite <- HP. apply elem_of_cons; by left. }
    assert (columns [] (c :: l') = c :: l') as ->.
    { unfold columns. simpl. rewrite Hc. done. }
    split; [done | done].
Qed.

Lemma default_reach_perm (l : list ProjectStatus) :
  default_reach l -> l = [] \/ l ≡ₚ DEFAULT_STATUSES.
Proof.
  induction 1 as [|l ts aty a ov b' p Hr IH Hh|l0 ts0 aty a ov b' p l ts ok Hr0 IH0 Hh Hr IH].
  - by left.
  - destruct (handleDragEnd_shape _ _ _ _ _ _ Hh) as (_ & [Hl | (i & j & Hm)] & _).
    + rewrite Hl. exact IH.
    + right. apply arrayMove_perm in Hm. rewrite Hm.
      apply (columns_empty_statuses l IH).
  - destruct ok; [exact IH|].
    destruct p as [pid ids snap|tid sid task]; simpl; [|exact IH].
    destruct (handleDragEnd_shape _ _ _ _ _ _ Hh) as (_ & _ & Hreq).
    destruct (Hreq pid ids snap eq_refl) as (-> & _).
    right. apply (columns_empty_statuses l0 IH0).
Qed.

Lemma findIndex_lookup {A} (p : A -> bool) (l : list A) i :
  findIndex p l = Some i -> exists x, l !! i = Some x.
Proof.
  revert i; induction l as [|x l IH]; intros i; simpl; [discriminate|].
  destruct (p x); [intros [= <-]; by exists x|].
  destruct (findIndex p l) as [k|] eqn:E; simpl; [|discriminate].
  intros [= <-]. simpl. by apply IH.
Qed.

(** Column drags the board ignores. *)
Lemma handleDragEnd_same_column aty a ov b :
  startsWith "column-" a = true -> startsWith "column-" ov = true ->
  dropPrefix "column-" a = dropPrefix "column-" ov ->
  handleDragEnd aty a (Some ov) b = (b, None).
Proof.
  intros Ha Ho Heq. unfold handleDragEnd. cbv zeta.
  rewrite Ha, Ho, Heq, String.eqb_refl. done.
Qed.

Lemma handleDragEnd_column_not_found aty a ov b :
  startsWith "column-" a = true -> startsWith "column-" ov = true ->
  findIndex (fun c => String.eqb (ps_id c) (dropPrefix "column-" a)) (board_columns b) = None \/
  findIndex (fun c => String.eqb (ps_id c) (dropPrefix "column-" ov)) (board_columns b) = None ->
  handleDragEnd aty a (Some ov) b = (b, None).
Proof.
  intros Ha Ho Hn. unfold handleDragEnd. cbv zeta. rewrite Ha, Ho. simpl.
  destruct (negb _); [|done].
  destruct Hn as [-> | ->]; [done|]. by destruct (findIndex _ _).
Qed.

Lemma initResult_keys (cols : list ProjectStatus) : keys_ok cols (initResult cols).
Proof.
  intros k. rewrite initResult_lookup. case_bool_decide as Hd; split; intros H;
    [done | by eexists | by destruct H | done].
Qed.

Lemma total_tasksByStatusId (cols : list ProjectStatus) (tasks : list Task) :
  cols <> [] -> total (tasksByStatusId cols tasks) = length tasks.
Proof.
  intros Hc. unfold tasksByStatusId.
  rewrite total_foldl_groupTask by (done || apply initResult_keys).
  rewrite total_empty_buckets; [done|].
  intros k b. rewrite initResult_lookup. case_bool_decide; congruence.
Qed.

(* ================================================================== *)
(** * The claims *)

(** ** Grouping of cards into columns *)

(** C2: with at least one column, [tasksByStatusId] puts every card in
    exactly one bucket, and the buckets hold as many cards as the input
    (none dropped, none duplicated); a card with no [statusId] and the
    legacy status [IN_REVIEW], on columns [todo], [in_progress], [done],
    lands in the first column [todo]. *)
Theorem tasksByStatusId_assigns_once :
  (forall (cols : list ProjectStatus) (tasks : list Task), cols <> [] ->
     (forall t, t ∈ tasks ->
        exists k b, tasksByStatusId cols tasks !! k = Some b /\ t ∈ b /\
          forall k' b', tasksByStatusId cols tasks !! k' = Some b' -> t ∈ b' -> k' = k) /\
     total (tasksByStatusId cols tasks) = length tasks) /\
  map ps_slug sample_cols = ["todo"; "in_progress"; "done"] /\
  tasksByStatusId sample_cols [legacy_card] !! "todo" = Some [legacy_card].
Proof.
  split; [|split; vm_compute; reflexivity].
  intros cols tasks Hc. split; [|by apply total_tasksByStatusId].
  intros t Ht. destruct (bucketOf_nonempty cols t Hc) as [k Hk].
  exists k, (filter (fun u => bucketOf cols u = Some k) tasks).
  rewrite tasksByStatusId_lookup.
  rewrite bool_decide_eq_true_2 by (by eapply bucketOf_elem).
  split; [done|]. split; [by apply list_elem_of_filter|].
  intros k' b'. rewrite tasksByStatusId_lookup.
  case_bool_decide; [|discriminate]. intros [= <-] Hin.
  apply list_elem_of_filter in Hin as [Hk' _]. congruence.
Qed.

Lemma tasksByStatusId_assigns_once_witness :
  sample_cols <> [] /\
  total (tasksByStatusId sample_cols (b_tasks sample_board)) = length (b_tasks sample_board).
Proof.
  split; [discriminate|].
  apply (proj2 (proj1 tasksByStatusId_assigns_once sample_cols (b_tasks sample_board)
                  ltac:(discriminate))).
Defined.

(** C10: each bucket of [tasksByStatusId] is the input card list filtered
    by the bucket's column, so it keeps the input's relative order. *)
Theorem tasksByStatusId_order_preserving (cols : list ProjectStatus) (tasks : list Task)
    (k : string) (b : list Task) :
  tasksByStatusId cols tasks !! k = Some b ->
  b = filter (fun t => bucketOf cols t = Some k) tasks /\ b `sublist_of` tasks.
Proof.
  rewrite tasksByStatusId_lookup. case_bool_decide; [|discriminate].
  intros [= <-]. split; [done|]. apply sublist_filter.
Qed.

Lemma tasksByStatusId_order_preserving_witness :
  tasksByStatusId sample_cols (b_tasks sample_board) !! "todo" = Some [legacy_card; todo_card] /\
  [legacy_card; todo_card] `sublist_of` b_tasks sample_board.
Proof.
  assert (H : tasksByStatusId sample_cols (b_tasks sample_board) !! "todo"
              = Some [legacy_card; todo_card]) by (vm_compute; reflexivity).
  split; [exact H|].
  exact (proj2 (tasksByStatusId_order_preserving _ _ _ _ H)).
Defined.

(** ** Column reorder: [arrayMove] *)

(** C5: for valid indices [s] and [d], [arrayMove l s d] puts the element
    at [s] at position [d] and leaves the other elements in their relative
    order (removing position [d] of the result gives [l] without position
    [s]); [arrayMove [A;B;C;D] 0 2 = [B;C;A;D]]. *)
Theorem arrayMove_single_element_move :
  (forall (A : Type) (l : list A) (s d : nat) (x : A),
     l !! s = Some x -> d < length l ->
     exists l', arrayMove l s d = Some l' /\ l' !! d = Some x /\
                delete d l' = delete s l /\ length l' = length l) /\
  arrayMove ["A"; "B"; "C"; "D"]%string 0 2 = Some ["B"; "C"; "A"; "D"]%string.
Proof.
  split; [|reflexivity].
  intros A l s d x. apply arrayMove_lookup_valid.
Qed.

Lemma arrayMove_single_element_move_witness :
  ["A"; "B"; "C"; "D"]%string !! 0 = Some "A"%string /\
  exists l', arrayMove ["A"; "B"; "C"; "D"]%string 0 2 = Some l' /\ l' !! 2 = Some "A"%string /\
             delete 2 l' = delete 0 ["A"; "B"; "C"; "D"]%string /\ length l' = 4.
Proof.
  split; [reflexivity|].
  apply (proj1 arrayMove_single_element_move string ["A"; "B"; "C"; "D"]%string 0 2 "A"%string);
    [reflexivity | simpl; lia].
Defined.

(** C6: for indices [s], [d] of [l], moving [s] to [d] and then the moved
    element back from [d] to [s] gives [l] again. *)
Theorem arrayMove_inverse_restores {A : Type} (l l' : list A) (s d : nat) :
  s < length l -> d < length l ->
  arrayMove l s d = Some l' -> arrayMove l' d s = Some l.
Proof.
  intros Hs Hd Hm.
  destruct (lookup_lt_is_Some_2 l s Hs) as [x Hx].
  destruct (arrayMove_lookup_valid l s d x Hx Hd) as (l'' & Hm' & Hxd & Hdel & _).
  rewrite Hm in Hm'. injection Hm' as <-.
  rewrite (arrayMove_Some l' d s x Hxd), Hdel.
  by rewrite splice_insert_lookup_delete.
Qed.

Lemma arrayMove_inverse_restores_witness :
  0 < length ["A"; "B"; "C"; "D"]%string /\ 2 < length ["A"; "B"; "C"; "D"]%string /\
  arrayMove ["A"; "B"; "C"; "D"]%string 0 2 = Some ["B"; "C"; "A"; "D"]%string /\
  arrayMove ["B"; "C"; "A"; "D"]%string 2 0 = Some ["A"; "B"; "C"; "D"]%string.
Proof.
  split; [simpl; lia|]. split; [simpl; lia|]. split; [reflexivity|].
  apply (arrayMove_inverse_restores ["A"; "B"; "C"; "D"]%string _ 0 2);
    [simpl; lia | simpl; lia | reflexivity].
Defined.

(** ** Column reorder: failure of the persistence request *)

(** C1: when the reorder request of a column drag fails and nothing else
    happened meanwhile, the board shows the column order it showed before
    the drag; likewise on the settings page, whose failure path puts the
    previous [statuses] back. *)
Theorem reorder_failure_restores_order :
  (forall aty a ov b b' pid ids snap,
     handleDragEnd aty a ov b = (b', Some (ReorderRequest pid ids snap)) ->
     board_columns (complete (ReorderRequest pid ids snap) false b') = board_columns b) /\
  (forall projectId a ov statuses statuses' p,
     settingsDragEnd projectId a ov statuses = (statuses', Some p) ->
     settingsComplete p false statuses' = statuses).
Proof.
  split.
  - intros aty a ov b b' pid ids snap H.
    apply (reorder_revert_to_snapshot aty a ov b b' pid ids snap b' H).
    by destruct (handleDragEnd_shape _ _ _ _ _ _ H) as (-> & _).
  - intros projectId a ov statuses statuses' p H.
    by destruct (settingsDragEnd_request _ _ _ _ _ _ H) as [ids ->].
Qed.

Lemma reorder_failure_restores_order_witness :
  board_columns (complete (ReorderRequest "p1" ["in_progress"; "done"; "todo"] sample_cols)
                          false (fst sample_reorder)) = board_columns sample_board /\
  settingsComplete (ReorderRequest "p1" ["in_progress"; "done"; "todo"] sample_cols) false
    (fst (settingsDragEnd "p1" "todo" (Some "done") sample_cols)) = sample_cols.
Proof.
  split.
  - apply (proj1 reorder_failure_restores_order (Some DragColumn) "column-todo"
             (Some "column-done") sample_board (fst sample_reorder)).
    vm_compute. reflexivity.
  - apply (proj2 reorder_failure_restores_order "p1" "todo" (Some "done") sample_cols).
    vm_compute. reflexivity.
Defined.

(** C3 (counterexample): two column drags on project [p1]; the first
    request fails after the second drag was applied; its [catch] block
    puts back the columns from before the first drag, and the order of the
    second drag is no longer shown. *)
Lemma stale_revert_clobbers_later_reorder :
  exists b1 ids1 b2 p2,
    handleDragEnd (Some DragColumn) "column-todo" (Some "column-done") sample_board
      = (b1, Some (ReorderRequest "p1" ids1 sample_cols)) /\
    handleDragEnd (Some DragColumn) "column-in_progress" (Some "column-done") b1
      = (b2, Some p2) /\
    board_columns (complete (ReorderRequest "p1" ids1 sample_cols) false b2)
      <> board_columns b2.
Proof.
  do 4 eexists. split; [vm_compute; reflexivity|]. split; [vm_compute; reflexivity|].
  vm_compute. discriminate.
Qed.

(** C3 (amended): when a reorder request fails after later drags were
    applied, the board shows the column order from before the failed
    reorder: the later drag's order is overwritten by the stale snapshot. *)
Theorem stale_reorder_failure_restores_first_snapshot
    aty a ov b b1 pid ids snap aty2 a2 ov2 b2 p2 :
  handleDragEnd aty a ov b = (b1, Some (ReorderRequest pid ids snap)) ->
  handleDragEnd aty2 a2 ov2 b1 = (b2, p2) ->
  board_columns (complete (ReorderRequest pid ids snap) false b2) = board_columns b.
Proof.
  intros H1 H2.
  apply (reorder_revert_to_snapshot aty a ov b b1 pid ids snap b2 H1).
  destruct (handleDragEnd_shape _ _ _ _ _ _ H1) as (E1 & _).
  destruct (handleDragEnd_shape _ _ _ _ _ _ H2) as (E2 & _).
  congruence.
Qed.

Lemma stale_reorder_failure_restores_first_snapshot_witness :
  map ps_id (board_columns (complete
      (ReorderRequest "p1" ["in_progress"; "done"; "todo"] sample_cols) false
      (fst (handleDragEnd (Some DragColumn) "column-in_progress" (Some "column-done")
                          (fst sample_reorder))))) = ["todo"; "in_progress"; "done"].
Proof.
  rewrite (stale_reorder_failure_restores_first_snapshot (Some DragColumn) "column-todo"
             (Some "column-done") sample_board (fst sample_reorder) "p1"
             ["in_progress"; "done"; "todo"] sample_cols (Some DragColumn)
             "column-in_progress" (Some "column-done") _
             (snd (handleDragEnd (Some DragColumn) "column-in_progress" (Some "column-done")
                                 (fst sample_reorder)))).
  - vm_compute. reflexivity.
  - vm_compute. reflexivity.
  - apply surjective_pairing.
Defined.

(** ** Card moves *)

(** C4: a card dropped on a target other than its resolved column gets the
    target as its [statusId] in the page's task list before the request is
    issued; on success that stays and the card resolves to the target; on
    failure the card is put back as it was, with its previous [statusId],
    over the same columns. *)
Theorem card_move_optimistic_then_settles (b : Board) (a ov target : string) (task : Task) :
  find (fun t => String.eqb (t_id t) a) (b_tasks b) = Some task ->
  startsWith "column-" a && startsWith "column-" ov = false ->
  targetStatusIdOf (board_columns b) (b_tasks b) ov = Some target ->
  target <> "" ->
  resolveStatusId (board_columns b) task <> Some target ->
  let moved := withStatusId task target in
  let b' := mkBoard (b_statuses b) (b_localStatuses b) (handleTaskUpdate moved (b_tasks b)) in
  let p := StatusRequest a target task in
  handleDragEnd (Some DragTask) a (Some ov) b = (b', Some p) /\
  find (fun t => String.eqb (t_id t) a) (b_tasks b') = Some moved /\
  t_statusId moved = Some target /\
  resolveStatusId (board_columns b') moved = Some target /\
  complete p true b' = b' /\
  find (fun t => String.eqb (t_id t) a) (b_tasks (complete p false b')) = Some task /\
  board_columns (complete p false b') = board_columns b.
Proof.
  intros Hf Hcol Ht Hne Hres. cbv zeta.
  assert (Hid : t_id task = a).
  { clear -Hf. induction (b_tasks b) as [|x l IH]; simpl in Hf; [discriminate|].
    destruct (String.eqb (t_id x) a) eqn:E; [|by apply IH].
    injection Hf as <-. by apply String.eqb_eq. }
  split; [by apply handleDragEnd_move|].
  split; [by apply (find_handleTaskUpdate _ a task)|].
  split; [done|].
  split.
  { unfold resolveStatusId, withStatusId. cbn [t_statusId].
    by rewrite (proj2 (truthy_Some target) Hne). }
  split; [done|].
  split; [|done].
  simpl. apply (find_handleTaskUpdate _ a (withStatusId task target) task); [|done].
  by apply (find_handleTaskUpdate _ a task).
Qed.

Lemma card_move_optimistic_then_settles_witness :
  resolveStatusId sample_cols todo_card = Some "todo" /\
  (let b' := mkBoard sample_cols sample_cols
               (handleTaskUpdate (withStatusId todo_card "done") (b_tasks sample_board)) in
   let p := StatusRequest "c2" "done" todo_card in
   handleDragEnd (Some DragTask) "c2" (Some "droppable-done") sample_board = (b', Some p) /\
   resolveStatusId sample_cols (withStatusId todo_card "done") = Some "done" /\
   find (fun t => String.eqb (t_id t) "c2") (b_tasks (complete p false b')) = Some todo_card).
Proof.
  split; [reflexivity|].
  destruct (card_move_optimistic_then_settles sample_board "c2" "droppable-done" "done" todo_card)
    as (H1 & _ & _ & H4 & _ & H6 & _);
    [reflexivity | reflexivity | vm_compute; reflexivity | discriminate
    | vm_compute; discriminate |].
  split; [exact H1|]. split; [exact H4 | exact H6].
Defined.

(** C7 (the card drop that is not a no-op): on columns [todo],
    [in_progress], [done] of project [p1], the card with no [statusId] and
    the legacy status [IN_REVIEW] is shown in [todo], and [todo] is its
    resolved column; dropping it on [todo] still rewrites the card and
    issues a status request, because the handler resolves its current
    column to [null] instead of the first column. *)
Theorem fallback_card_drop_on_own_column_issues_request :
  bucketOf sample_cols legacy_card = Some "todo" /\
  resolveStatusId sample_cols legacy_card = Some "todo" /\
  currentStatusIdOf sample_cols legacy_card = None /\
  handleDragEnd (Some DragTask) "c1" (Some "droppable-todo") sample_board =
    (mkBoard sample_cols sample_cols
             (handleTaskUpdate (withStatusId legacy_card "todo") (b_tasks sample_board)),
     Some (StatusRequest "c1" "todo" legacy_card)) /\
  handleTaskUpdate (withStatusId legacy_card "todo") (b_tasks sample_board)
    <> b_tasks sample_board.
Proof.
  split; [vm_compute; reflexivity|]. split; [vm_compute; reflexivity|].
  split; [vm_compute; reflexivity|]. split; [vm_compute; reflexivity|].
  vm_compute. discriminate.
Qed.

(** ** The default columns *)

(** C8 (counterexample): with an empty status list, after the [todo]
    header is dragged onto [in_progress] the board shows the default
    columns in another order. *)
Lemma default_columns_after_local_reorder :
  exists l, default_reach l /\ columns [] l <> DEFAULT_STATUSES.
Proof.
  set (r := handleDragEnd (Some DragColumn) "column-todo" (Some "column-in_progress")
              default_board).
  exists (b_localStatuses (fst r)). split.
  - apply (dr_drag [] [] (Some DragColumn) "column-todo" (Some "column-in_progress")
             (fst r) (snd r)); [constructor | apply surjective_pairing].
  - vm_compute. discriminate.
Qed.

(** C8 (amended): with an empty status list since mount, the board shows
    a permutation of the four default columns, exactly [DEFAULT_STATUSES]
    in order until a column is reordered locally, and after such a reorder
    the list kept in [localStatuses]; their slugs are [todo],
    [in_progress], [in_review], [done], their [position] fields 0 to 3,
    and only [done] has [isDone = 1]. *)
Theorem empty_statuses_default_columns (l : list ProjectStatus) :
  default_reach l ->
  columns [] l ≡ₚ DEFAULT_STATUSES /\
  (l = [] -> columns [] l = DEFAULT_STATUSES) /\
  (l <> [] -> columns [] l = l) /\
  map ps_slug DEFAULT_STATUSES = ["todo"; "in_progress"; "in_review"; "done"] /\
  map ps_position DEFAULT_STATUSES = [0; 1; 2; 3]%Z /\
  (forall c, c ∈ columns [] l -> ps_isDone c = 1%Z <-> ps_slug c = "done").
Proof.
  intros Hr. pose proof (columns_empty_statuses l (default_reach_perm l Hr)) as [HP Hl].
  split; [done|]. split; [by intros ->|]. split; [exact Hl|].
  split; [reflexivity|]. split; [reflexivity|].
  intros c Hc. rewrite HP in Hc. apply list_elem_of_In in Hc. simpl in Hc.
  repeat destruct Hc as [<-|Hc]; [split; done..|contradiction].
Qed.

Lemma empty_statuses_default_columns_witness :
  columns [] [] = DEFAULT_STATUSES /\
  columns [] (b_localStatuses (fst default_reorder)) = b_localStatuses (fst default_reorder) /\
  columns [] (b_localStatuses (fst default_reorder)) ≡ₚ DEFAULT_STATUSES /\
  map ps_slug (columns [] (b_localStatuses (fst default_reorder))) =
    ["in_progress"; "todo"; "in_review"; "done"].
Proof.
  assert (Hr : default_reach (b_localStatuses (fst default_reorder))).
  { apply (dr_drag [] [] (Some DragColumn) "column-todo" (Some "column-in_progress")
             (fst default_reorder) (snd default_reorder));
      [constructor | apply surjective_pairing]. }
  destruct (empty_statuses_default_columns [] dr_mount) as (_ & H0 & _).
  destruct (empty_statuses_default_columns _ Hr) as (HP & _ & Hl & _).
  assert (Hloc : columns [] (b_localStatuses (fst default_reorder)) =
                 b_localStatuses (fst default_reorder)).
  { apply Hl. vm_compute. discriminate. }
  split; [by apply H0|]. split; [exact Hloc|]. split; [exact HP|].
  rewrite Hloc. reflexivity.
Defined.

(** C9: while the first shown column has the project identifier [""] (the
    default columns), a column drag between two distinct shown columns
    puts the moved order into [localStatuses] and issues no request, so
    there is nothing to fail or revert. *)
Theorem default_columns_reorder_not_persisted aty a ov (b : Board) (i j : nat) :
  ps_projectId <$> head (board_columns b) = Some "" ->
  startsWith "column-" a = true -> startsWith "column-" ov = true ->
  dropPrefix "column-" a <> dropPrefix "column-" ov ->
  findIndex (fun c => String.eqb (ps_id c) (dropPrefix "column-" a)) (board_columns b) = Some i ->
  findIndex (fun c => String.eqb (ps_id c) (dropPrefix "column-" ov)) (board_columns b) = Some j ->
  exists newColumns,
    arrayMove (board_columns b) i j = Some newColumns /\
    handleDragEnd aty a (Some ov) b = (mkBoard (b_statuses b) newColumns (b_tasks b), None).
Proof.
  intros Hp Ha Ho Hne Hi Hj.
  destruct (findIndex_lookup _ _ _ Hi) as [x Hx].
  exists (splice_insert j x (delete i (board_columns b))).
  split; [by apply arrayMove_Some|].
  unfold handleDragEnd. cbv zeta. rewrite Ha, Ho. simpl.
  rewrite (proj2 (String.eqb_neq _ _) Hne). simpl.
  rewrite Hi, Hj, (arrayMove_Some _ _ _ _ Hx), Hp. done.
Qed.

Lemma default_columns_reorder_not_persisted_witness :
  exists newColumns,
    arrayMove (board_columns default_board) 0 3 = Some newColumns /\
    handleDragEnd (Some DragColumn) "column-todo" (Some "column-done") default_board
      = (mkBoard [] newColumns [], None).
Proof.
  apply (default_columns_reorder_not_persisted (Some DragColumn) "column-todo" "column-done"
           default_board 0 3); vm_compute; first [reflexivity | discriminate].
Defined.

(* ================================================================== *)
(** * Further properties *)

(** ** Helpers for the further properties *)

Lemma opt_string_eqb_true a b : opt_string_eqb a b = true <-> a = b.
Proof.
  destruct a as [x|], b as [y|]; simpl; try (split; congruence).
  rewrite String.eqb_eq. split; congruence.
Qed.

Lemma find_Some_true {A} (p : A -> bool) (l : list A) x :
  find p l = Some x -> p x = true /\ x ∈ l.
Proof.
  induction l as [|y l IH]; simpl; [discriminate|].
  destruct (p y) eqn:E; [intros [= <-]; split; [done|]; apply elem_of_cons; by left|].
  intros H. destruct (IH H) as [? ?]. split; [done|]. apply elem_of_cons; by right.
Qed.

Lemma find_None_false {A} (p : A -> bool) (l : list A) x :
  find p l = None -> x ∈ l -> p x = false.
Proof.
  induction l as [|y l IH]; simpl; [intros _ Hx; by apply elem_of_nil in Hx|].
  destruct (p y) eqn:E; [discriminate|].
  intros H Hx. apply elem_of_cons in Hx as [->|Hx]; [done|]. by apply IH.
Qed.

Lemma lookup_map {A B} (f : A -> B) (l : list A) i : map f l !! i = f <$> l !! i.
Proof. revert i; induction l as [|x l IH]; intros [|i]; simpl; auto. Qed.

Lemma board_columns_nonempty b : board_columns b <> [].
Proof.
  unfold board_columns, columns.
  destruct (Nat.ltb 0 (length (b_localStatuses b)) && _) eqn:E.
  - apply andb_prop in E as [E _]. apply Nat.ltb_lt in E.
    intros Hn. rewrite Hn in E. simpl in E. lia.
  - destruct (Nat.ltb 0 (length (b_statuses b))) eqn:E2; [|discriminate].
    apply Nat.ltb_lt in E2. intros Hn. rewrite Hn in E2. simpl in E2. lia.
Qed.

(** A list that starts with a column of the same project as the shown
    columns is shown as it is. *)
Lemma columns_adopt (statuses localStatuses l : list ProjectStatus) :
  l <> [] ->
  ps_projectId <$> head l = ps_projectId <$> head (columns statuses localStatuses) ->
  columns statuses l = l.
Proof.
  intros Hl Hp. unfold columns in *.
  set (base := if Nat.ltb 0 (length statuses) then statuses else DEFAULT_STATUSES) in *.
  assert (Hb : ps_projectId <$> head l = ps_projectId <$> head base).
  { destruct (Nat.ltb 0 (length localStatuses)
              && opt_string_eqb (ps_projectId <$> head localStatuses)
                                (ps_projectId <$> head base)) eqn:E; [|done].
    apply andb_prop in E as [_ E]. apply opt_string_eqb_true in E. congruence. }
  rewrite Hb. destruct l as [|c l']; [done|]. simpl.
  destruct (ps_projectId <$> head base) as [x|]; simpl; [|done].
  by rewrite String.eqb_refl.
Qed.

Lemma handleDragEnd_request_ids aty a ov b b' pid ids snap :
  handleDragEnd aty a ov b = (b', Some (ReorderRequest pid ids snap)) ->
  ids = map ps_id (b_localStatuses b').
Proof. unfold handleDragEnd. intros H. repeat case_match; simplify_eq/=; done. Qed.

Lemma handleDragEnd_status_shape aty a ov b b' tid sid snap :
  handleDragEnd aty a ov b = (b', Some (StatusRequest tid sid snap)) ->
  b' = mkBoard (b_statuses b) (b_localStatuses b)
         (handleTaskUpdate (withStatusId snap sid) (b_tasks b)) /\
  find (fun t => String.eqb (t_id t) tid) (b_tasks b) = Some snap.
Proof. unfold handleDragEnd. intros H. repeat case_match; simplify_eq/=; done. Qed.

(** ** Partition of the cards among keys *)

Section Partition.
Variable f : Task -> option string.

Lemma concat_filter_nil (ks : list string) :
  concat (map (fun k => filter (fun t => f t = Some k) []) ks) = [].
Proof. induction ks; simpl; auto. Qed.

Lemma concat_filter_cons_notin (x : Task) (l : list Task) (ks : list string) :
  (forall k, k ∈ ks -> f x <> Some k) ->
  concat (map (fun k => filter (fun t => f t = Some k) (x :: l)) ks) =
  concat (map (fun k => filter (fun t => f t = Some k) l) ks).
Proof.
  induction ks as [|k ks IH]; intros H; simpl; [done|].
  rewrite filter_cons_False by (apply H; apply elem_of_cons; by left).
  f_equal. apply IH. intros k' Hk'. apply H. apply elem_of_cons; by right.
Qed.

Lemma concat_filter_cons (x : Task) (l : list Task) (ks : list string) k0 :
  NoDup ks -> f x = Some k0 -> k0 ∈ ks ->
  concat (map (fun k => filter (fun t => f t = Some k) (x :: l)) ks) ≡ₚ
  x :: concat (map (fun k => filter (fun t => f t = Some k) l) ks).
Proof.
  induction ks as [|k ks IH]; intros Hnd Hx Hin; [by apply elem_of_nil in Hin|].
  apply NoDup_cons in Hnd as [Hk Hnd]. simpl.
  destruct (decide (k0 = k)) as [->|Hne].
  - rewrite filter_cons_True by done. simpl.
    rewrite concat_filter_cons_notin; [done|].
    intros k' Hk' Heq. rewrite Hx in Heq. injection Heq as <-. contradiction.
  - rewrite filter_cons_False by congruence.
    apply elem_of_cons in Hin as [->|Hin]; [done|].
    rewrite IH by done. by rewrite <- Permutation_middle.
Qed.

Lemma concat_filter_partition (ks : list string) (l : list Task) :
  NoDup ks -> (forall x, x ∈ l -> exists k, f x = Some k /\ k ∈ ks) ->
  concat (map (fun k => filter (fun t => f t = Some k) l) ks) ≡ₚ l.
Proof.
  intros Hnd. induction l as [|x l IH]; intros Hall.
  - by rewrite concat_filter_nil.
  - destruct (Hall x) as (k0 & Hx & Hk0); [apply elem_of_cons; by left|].
    rewrite (concat_filter_cons x l ks k0) by done.
    f_equiv. apply IH. intros y Hy. apply Hall. apply elem_of_cons; by right.
Qed.

End Partition.

Lemma filter_List_filter (P : Task -> Prop) `{forall t, Decision (P t)} (q : Task -> bool)
    (l : list Task) :
  filter P (List.filter q l) = List.filter q (filter P l).
Proof.
  induction l as [|x l IH]; [done|]. cbn [List.filter].
  destruct (decide (P x)) as [Hp|Hp].
  - rewrite (filter_cons_True _ x) by done. cbn [List.filter].
    destruct (q x); [rewrite filter_cons_True by done|]; by rewrite IH.
  - rewrite (filter_cons_False _ x) by done.
    destruct (q x); [rewrite filter_cons_False by done|]; by rewrite IH.
Qed.

(** ** Further properties of the board *)

(** X1: over a droppable, a column header or a card, [handleDragOver] sets
    [overColumnId] to the drop target [handleDragEnd] computes for the same
    pointer position, so during a card drag the column drawn as [isOver] is
    exactly the column the card would be moved to. *)
Theorem handleDragOver_matches_drop_target (cols : list ProjectStatus) (tasks : list Task)
    (over : string) (prev : option string) :
  (startsWith "droppable-" over || startsWith "column-" over
   || bool_decide (is_Some (find (fun t => String.eqb (t_id t) over) tasks))) = true ->
  handleDragOver cols tasks (Some over) prev = targetStatusIdOf cols tasks over /\
  forall status, isOver (handleDragOver cols tasks (Some over) prev) (Some DragTask) status =
                 opt_string_eqb (targetStatusIdOf cols tasks over) (Some (ps_id status)).
Proof.
  intros H.
  assert (Heq : handleDragOver cols tasks (Some over) prev = targetStatusIdOf cols tasks over).
  { unfold handleDragOver, targetStatusIdOf.
    destruct (startsWith "droppable-" over); [done|].
    destruct (startsWith "column-" over); [done|]. simpl in H.
    destruct (find _ tasks) as [o|]; [|by apply bool_decide_eq_true in H as []].
    cbv zeta. by destruct (truthy (t_statusId o)) eqn:E; rewrite ?E. }
  split; [done|]. intros status. unfold isOver. rewrite Heq. apply andb_true_r.
Qed.

Lemma handleDragOver_matches_drop_target_witness :
  handleDragOver sample_cols [legacy_card; todo_card] (Some "c2") None = Some "todo" /\
  isOver (handleDragOver sample_cols [legacy_card; todo_card] (Some "c2") None) (Some DragTask)
    (sample_status "todo" "todo" 0 0) = true.
Proof.
  destruct (handleDragOver_matches_drop_target sample_cols [legacy_card; todo_card] "c2" None)
    as [H1 H2]; [reflexivity|].
  split; [rewrite H1; reflexivity|]. rewrite H2. reflexivity.
Defined.

(** X2: the board always has at least one column, and grouping its cards
    keeps as many cards as the [tasks] list holds. *)
Theorem board_shows_every_card (b : Board) :
  board_columns b <> [] /\
  total (tasksByStatusId (board_columns b) (b_tasks b)) = length (b_tasks b).
Proof.
  split; [apply board_columns_nonempty|].
  apply total_tasksByStatusId, board_columns_nonempty.
Qed.

(** X3: when the column identifiers are distinct, the rendered columns'
    card lists together are a permutation of [tasks]: every card is drawn
    exactly once. *)
Theorem renderedColumns_partition (cols : list ProjectStatus) (tasks : list Task) :
  cols <> [] -> NoDup (map ps_id cols) ->
  concat (renderedColumns cols tasks) ≡ₚ tasks.
Proof.
  intros Hc Hnd. unfold renderedColumns. cbv zeta.
  assert (map (fun status => default [] (tasksByStatusId cols tasks !! ps_id status)) cols =
          map (fun k => filter (fun t => bucketOf cols t = Some k) tasks) (map ps_id cols))
    as ->.
  { rewrite map_map. apply map_ext_in. intros s Hs.
    rewrite tasksByStatusId_lookup, bool_decide_eq_true_2; [done|].
    apply list_elem_of_In, in_map, Hs. }
  apply concat_filter_partition; [done|]. intros x _.
  destruct (bucketOf_nonempty cols x Hc) as [k Hk]. exists k. split; [done|].
  by apply (bucketOf_elem cols x k).
Qed.

Lemma renderedColumns_partition_witness :
  concat (renderedColumns sample_cols [legacy_card; todo_card]) ≡ₚ [legacy_card; todo_card].
Proof.
  apply renderedColumns_partition; [discriminate|].
  apply NoDup_ListNoDup. vm_compute. repeat constructor; simpl; intuition discriminate.
Defined.

(** Unique card identifiers: the card [find] returns is the only one with
    its identifier. *)
Lemma find_unique_id (tasks : list Task) a task t :
  NoDup (map t_id tasks) ->
  find (fun u => String.eqb (t_id u) a) tasks = Some task ->
  t ∈ tasks -> t_id t = a -> t = task.
Proof.
  induction tasks as [|x l IH]; simpl; [discriminate|].
  intros Hnd Hf Ht Hid. apply NoDup_cons in Hnd as [Hx Hnd].
  destruct (String.eqb (t_id x) a) eqn:E.
  - injection Hf as <-. apply String.eqb_eq in E.
    apply elem_of_cons in Ht as [->|Ht]; [done|].
    exfalso. apply Hx. rewrite E, <- Hid. apply list_elem_of_In, in_map, list_elem_of_In, Ht.
  - apply elem_of_cons in Ht as [->|Ht].
    + rewrite Hid, String.eqb_refl in E. discriminate.
    + by apply IH.
Qed.

(** X4: when all shown columns belong to one project, a drag end leaves the
    shown columns a permutation of the previous ones, and a reorder request
    sends the identifiers of the column order now shown. *)
Theorem handleDragEnd_keeps_columns aty a ov (b b' : Board) p :
  (forall c c', c ∈ board_columns b -> c' ∈ board_columns b ->
     ps_projectId c = ps_projectId c') ->
  handleDragEnd aty a ov b = (b', p) ->
  board_columns b' ≡ₚ board_columns b /\
  (forall pid ids snap, p = Some (ReorderRequest pid ids snap) ->
     ids = map ps_id (board_columns b')).
Proof.
  intros Hpid H.
  destruct (handleDragEnd_shape _ _ _ _ _ _ H) as (Hst & Hloc & Hreq).
  assert (Hmove : forall i j, arrayMove (board_columns b) i j = Some (b_localStatuses b') ->
            board_columns b' = b_localStatuses b' /\ b_localStatuses b' ≡ₚ board_columns b).
  { intros i j Hm. pose proof (arrayMove_perm _ _ _ _ Hm) as HP.
    destruct (arrayMove_cons_inv _ _ _ _ Hm) as [Hc Hl'].
    split; [|done].
    unfold board_columns. rewrite Hst.
    apply (columns_adopt _ (b_localStatuses b)); [done|].
    fold (board_columns b).
    destruct (b_localStatuses b') as [|c l'] eqn:El; [done|].
    destruct (board_columns b) as [|c0 cs] eqn:Ec; [done|]. simpl. f_equal.
    apply Hpid; [rewrite <- HP; apply elem_of_cons; by left|apply elem_of_cons; by left]. }
  split.
  - destruct Hloc as [Hl | (i & j & Hm)].
    + unfold board_columns. by rewrite Hst, Hl.
    + destruct (Hmove i j Hm) as [-> HP]. exact HP.
  - intros pid ids snap ->.
    destruct (Hreq pid ids snap eq_refl) as (Hsnap & _ & _ & _ & i & j & Hm).
    rewrite Hsnap in Hm. destruct (Hmove i j Hm) as [-> _].
    by apply (handleDragEnd_request_ids aty a ov b b' pid ids snap).
Qed.

Lemma handleDragEnd_keeps_columns_witness :
  board_columns (fst sample_reorder) ≡ₚ board_columns sample_board /\
  ["in_progress"; "done"; "todo"] = map ps_id (board_columns (fst sample_reorder)).
Proof.
  destruct (handleDragEnd_keeps_columns (Some DragColumn) "column-todo" (Some "column-done")
              sample_board (fst sample_reorder) (snd sample_reorder)) as [H1 H2].
  - intros c c' Hc Hc'. vm_compute in Hc, Hc'.
    repeat (apply elem_of_cons in Hc as [->|Hc]); [..|by apply elem_of_nil in Hc];
    repeat (apply elem_of_cons in Hc' as [->|Hc']); try (by apply elem_of_nil in Hc'); reflexivity.
  - reflexivity.
  - split; [exact H1|]. apply (H2 "p1" _ sample_cols). reflexivity.
Defined.

(** X5: a card move changes only the cards with the moved identifier, which
    become the captured card with the new [statusId]; the other cards, their
    positions, the number of cards and the columns are unchanged. *)
Theorem card_move_changes_only_moved_card aty a ov (b b' : Board) tid sid snap :
  handleDragEnd aty a ov b = (b', Some (StatusRequest tid sid snap)) ->
  t_id snap = tid /\ snap ∈ b_tasks b /\
  board_columns b' = board_columns b /\
  length (b_tasks b') = length (b_tasks b) /\
  (forall i t, b_tasks b !! i = Some t ->
     b_tasks b' !! i = Some (if String.eqb (t_id t) tid then withStatusId snap sid else t)).
Proof.
  intros H. destruct (handleDragEnd_status_shape _ _ _ _ _ _ _ _ H) as [-> Hf].
  apply find_Some_true in Hf as [Hid Hin]. apply String.eqb_eq in Hid.
  split; [done|]. split; [done|]. split; [done|]. simpl.
  split; [apply length_map|].
  intros i t Ht. unfold handleTaskUpdate. rewrite lookup_map, Ht. simpl.
  by rewrite Hid.
Qed.

Lemma card_move_changes_only_moved_card_witness :
  b_tasks (fst sample_move) !! 0 = Some legacy_card /\
  b_tasks (fst sample_move) !! 1 = Some (withStatusId todo_card "done").
Proof.
  destruct (card_move_changes_only_moved_card (Some DragTask) "c2" (Some "droppable-done")
              sample_board (fst sample_move) "c2" "done" todo_card) as (_ & _ & _ & _ & H);
    [reflexivity|].
  split; [apply (H 0 legacy_card) | apply (H 1 todo_card)]; reflexivity.
Defined.


(** X6: with unique card identifiers, the failure of a card move restores the
    page's task list exactly. *)
Theorem failed_card_move_restores_tasks aty a ov (b b' : Board) tid sid snap :
  NoDup (map t_id (b_tasks b)) ->
  handleDragEnd aty a ov b = (b', Some (StatusRequest tid sid snap)) ->
  b_tasks (complete (StatusRequest tid sid snap) false b') = b_tasks b.
Proof.
  intros Hnd H. destruct (handleDragEnd_status_shape _ _ _ _ _ _ _ _ H) as [-> Hf].
  pose proof (find_Some_true _ _ _ Hf) as [Hid _]. apply String.eqb_eq in Hid.
  simpl. unfold handleTaskUpdate. rewrite map_map.
  transitivity (map (fun t => t) (b_tasks b)); [|apply map_id].
  apply map_ext_in. intros t Ht.
  apply list_elem_of_In in Ht. cbn [t_id withStatusId].
  destruct (String.eqb (t_id t) (t_id snap)) eqn:E.
  - apply String.eqb_eq in E. rewrite String.eqb_refl.
    symmetry. apply (find_unique_id (b_tasks b) tid); [done..|congruence].
  - by rewrite E.
Qed.

Lemma failed_card_move_restores_tasks_witness :
  snd sample_move = Some (StatusRequest "c2" "done" todo_card) /\
  b_tasks (complete (StatusRequest "c2" "done" todo_card) false (fst sample_move)) =
    b_tasks sample_board.
Proof.
  split; [reflexivity|].
  apply (failed_card_move_restores_tasks (Some DragTask) "c2" (Some "droppable-done")).
  - apply NoDup_ListNoDup. vm_compute. repeat constructor; simpl; intuition discriminate.
  - reflexivity.
Defined.

(** X7: once a non-empty [statuses] prop has been received, the board shows
    exactly that list, whatever local reorder came before. *)
Theorem receiveStatuses_shows_statuses (statuses : list ProjectStatus) (b : Board) :
  statuses <> [] -> board_columns (receiveStatuses statuses b) = statuses.
Proof.
  intros Hs. unfold receiveStatuses, board_columns, columns. simpl.
  destruct statuses as [|c l]; [done|]. simpl.
  destruct (ps_projectId c); by rewrite ?String.eqb_refl.
Qed.

Lemma receiveStatuses_shows_statuses_witness :
  board_columns (receiveStatuses (rev sample_cols) (fst sample_reorder)) = rev sample_cols.
Proof. apply receiveStatuses_shows_statuses. discriminate. Defined.

(** X8: the settings reorder yields a permutation of the statuses, and its
    request carries the component's project, the new identifier order and
    the previous list as the snapshot to restore. *)
Theorem settingsDragEnd_permutes projectId a ov (statuses statuses' : list ProjectStatus) p :
  settingsDragEnd projectId a ov statuses = (statuses', p) ->
  statuses' ≡ₚ statuses /\
  (forall pid ids snap, p = Some (ReorderRequest pid ids snap) ->
     pid = projectId /\ ids = map ps_id statuses' /\ snap = statuses).
Proof.
  unfold settingsDragEnd. intros H.
  repeat case_match; simplify_eq/=;
    try (split; [done|]; intros; discriminate).
  split; [by eapply arrayMove_perm|]. intros pid ids snap [= -> -> ->]. done.
Qed.

Lemma settingsDragEnd_permutes_witness :
  fst (settingsDragEnd "p1" "todo" (Some "done") sample_cols) ≡ₚ sample_cols /\
  map ps_id (fst (settingsDragEnd "p1" "todo" (Some "done") sample_cols)) =
    ["in_progress"; "done"; "todo"].
Proof.
  destruct (settingsDragEnd_permutes "p1" "todo" (Some "done") sample_cols
              (fst (settingsDragEnd "p1" "todo" (Some "done") sample_cols))
              (snd (settingsDragEnd "p1" "todo" (Some "done") sample_cols))) as [H1 H2];
    [reflexivity|].
  split; [exact H1|].
  symmetry. apply (H2 "p1" _ sample_cols). reflexivity.
Defined.


(** ** Slugs *)

Lemma replaceNonAlnumRuns_chars b s :
  Forall (fun c => (isLowerAlnum c || N.eqb c UNDERSCORE) = true) (replaceNonAlnumRuns b s).
Proof.
  revert b; induction s as [|c s IH]; intros b; simpl; [constructor|].
  destruct (isLowerAlnum c) eqn:E; [constructor; [by rewrite E|apply IH]|].
  destruct b; [apply IH|]. constructor; [done|apply IH].
Qed.

Lemma replaceNonAlnumRuns_runs b s :
  (forall i, replaceNonAlnumRuns b s !! i = Some UNDERSCORE ->
     replaceNonAlnumRuns b s !! S i <> Some UNDERSCORE) /\
  (b = true -> head (replaceNonAlnumRuns b s) <> Some UNDERSCORE).
Proof.
  revert b; induction s as [|c s IH]; intros b; simpl; [split; [done|discriminate]|].
  destruct (isLowerAlnum c) eqn:E.
  - destruct (IH false) as [IH1 _]. split.
    + intros [|i]; simpl; [|apply IH1]. intros [= ->]. discriminate.
    + intros _. intros [= ->]. discriminate.
  - destruct b; [apply IH|].
    destruct (IH true) as [IH1 IH2]. split; [|discriminate].
    intros [|i]; simpl; [|apply IH1]. intros _. rewrite <- head_lookup. by apply IH2.
Qed.

Lemma runs_tail (c : N) r :
  (forall i, (c :: r) !! i = Some UNDERSCORE -> (c :: r) !! S i <> Some UNDERSCORE) ->
  forall i, r !! i = Some UNDERSCORE -> r !! S i <> Some UNDERSCORE.
Proof. intros H i. apply (H (S i)). Qed.

Lemma runs_prefix (l m : list N) :
  (forall i, (l ++ m) !! i = Some UNDERSCORE -> (l ++ m) !! S i <> Some UNDERSCORE) ->
  forall i, l !! i = Some UNDERSCORE -> l !! S i <> Some UNDERSCORE.
Proof.
  intros H i Hi Hs. apply (H i); by apply lookup_app_l_Some.
Qed.

Lemma stripEdgeUnderscores_spec (s : list N) :
  (forall i, s !! i = Some UNDERSCORE -> s !! S i <> Some UNDERSCORE) ->
  (forall x, x ∈ stripEdgeUnderscores s -> x ∈ s) /\
  (forall x, x ∈ s -> x <> UNDERSCORE -> x ∈ stripEdgeUnderscores s) /\
  (forall i, stripEdgeUnderscores s !! i = Some UNDERSCORE ->
     stripEdgeUnderscores s !! S i <> Some UNDERSCORE) /\
  head (stripEdgeUnderscores s) <> Some UNDERSCORE /\
  last (stripEdgeUnderscores s) <> Some UNDERSCORE.
Proof.
  intros Hs. unfold stripEdgeUnderscores.
  set (s1 := match s with c :: r => if N.eqb c UNDERSCORE then r else s | [] => [] end).
  assert (H1 : (forall x, x ∈ s1 -> x ∈ s) /\
               (forall x, x ∈ s -> x <> UNDERSCORE -> x ∈ s1) /\
               (forall i, s1 !! i = Some UNDERSCORE -> s1 !! S i <> Some UNDERSCORE) /\
               head s1 <> Some UNDERSCORE).
  { subst s1. destruct s as [|c r]; [done|].
    destruct (N.eqb c UNDERSCORE) eqn:E.
    - apply N.eqb_eq in E. subst c.
      split; [intros x Hx; apply elem_of_cons; by right|].
      split; [intros x Hx Hne; apply elem_of_cons in Hx as [->|Hx]; done|].
      split; [by apply (runs_tail UNDERSCORE)|].
      rewrite head_lookup. apply (Hs 0). done.
    - split; [done|]. split; [done|]. split; [done|].
      simpl. intros [= ->]. by rewrite N.eqb_refl in E. }
  clearbody s1. destruct H1 as (Hsub & Hkeep & Hruns & Hhead).
  destruct (last s1) as [y|] eqn:El; [|split; [done|]; split; [done|]; split; [done|]; split; [done|]; by rewrite El].
  destruct (N.eqb y UNDERSCORE) eqn:Ey;
    [|apply N.eqb_neq in Ey; split; [done|]; split; [done|]; split; [done|]; split; [done|]; rewrite El; congruence].
  apply N.eqb_eq in Ey. subst y.
  apply last_Some in El as [l ->]. rewrite removelast_last.
  split; [intros x Hx; apply Hsub, elem_of_app; by left|].
  split.
  { intros x Hx Hne. apply Hkeep in Hx; [|done].
    apply elem_of_app in Hx as [Hx|Hx]; [done|].
    apply list_elem_of_singleton in Hx. contradiction. }
  split; [by apply (runs_prefix l [UNDERSCORE])|].
  split.
  { destruct l as [|c l']; [discriminate|]. exact Hhead. }
  intros Hl. apply last_Some in Hl as [l' ->].
  apply (Hruns (length l')).
  - rewrite <- app_assoc. rewrite lookup_app_r by lia.
    by rewrite Nat.sub_diag.
  - rewrite <- app_assoc. rewrite lookup_app_r by lia.
    by replace (S (length l') - length l') with 1 by lia.
Qed.

Lemma slugOf_spec (toLowerCase : list N -> list N) (name : list N) :
  let slug := slugOf toLowerCase name in
  Forall (fun c => (isLowerAlnum c || N.eqb c UNDERSCORE) = true) slug /\
  (forall i, slug !! i = Some UNDERSCORE -> slug !! S i <> Some UNDERSCORE) /\
  head slug <> Some UNDERSCORE /\ last slug <> Some UNDERSCORE /\
  (forall x, x ∈ toLowerCase name -> isLowerAlnum x = true -> x ∈ slug).
Proof.
  unfold slugOf. cbv zeta.
  set (s := replaceNonAlnumRuns false (toLowerCase name)).
  assert (Hin : forall b x l, x ∈ l -> isLowerAlnum x = true -> x ∈ replaceNonAlnumRuns b l).
  { intros b x l. revert b. induction l as [|c l IH]; intros b Hx Ha;
      [by apply elem_of_nil in Hx|]. simpl.
    apply elem_of_cons in Hx as [->|Hx].
    - rewrite Ha. apply elem_of_cons; by left.
    - destruct (isLowerAlnum c); [apply elem_of_cons; right; by apply IH|].
      destruct b; [by apply IH|]. apply elem_of_cons; right; by apply IH. }
  destruct (stripEdgeUnderscores_spec s) as (Hsub & Hkeep & Hruns & Hhead & Hlast);
    [apply replaceNonAlnumRuns_runs|].
  split.
  { apply Forall_forall. intros x Hx. apply Hsub in Hx.
    pose proof (replaceNonAlnumRuns_chars false (toLowerCase name)) as Hc.
    rewrite Forall_forall in Hc. by apply Hc. }
  do 3 (split; [done|]).
  intros x Hx Ha. apply Hkeep; [by apply Hin|].
  intros ->. discriminate.
Qed.

(** X9: a slug computed by [handleCreate] consists of [a-z], [0-9] and [_],
    never has two [_] in a row, and neither starts nor ends with [_], for
    any case mapping. *)
Theorem slugOf_shape (toLowerCase : list N -> list N) (name : list N) :
  let slug := slugOf toLowerCase name in
  Forall (fun c => (isLowerAlnum c || N.eqb c UNDERSCORE) = true) slug /\
  (forall i, slug !! i = Some UNDERSCORE -> slug !! S i <> Some UNDERSCORE) /\
  head slug <> Some UNDERSCORE /\ last slug <> Some UNDERSCORE.
Proof.
  cbv zeta. destruct (slugOf_spec toLowerCase name) as (H1 & H2 & H3 & H4 & _).
  done.
Qed.

Lemma replaceNonAlnumRuns_nonalnum b s :
  Forall (fun c => isLowerAlnum c = false) s ->
  replaceNonAlnumRuns b s = if b then [] else match s with [] => [] | _ => [UNDERSCORE] end.
Proof.
  intros H. revert b; induction H as [|c s Hc H IH]; intros b; simpl; [by destruct b|].
  rewrite Hc, IH. by destruct b.
Qed.

(** X10: the computed slug is empty exactly when the lower-cased name has no
    character in [a-z0-9]. *)
Theorem slugOf_empty (toLowerCase : list N -> list N) (name : list N) :
  slugOf toLowerCase name = [] <->
  Forall (fun c => isLowerAlnum c = false) (toLowerCase name).
Proof.
  split.
  - intros H. apply Forall_forall. intros x Hx.
    destruct (isLowerAlnum x) eqn:E; [|done]. exfalso.
    destruct (slugOf_spec toLowerCase name) as (_ & _ & _ & _ & Hin).
    specialize (Hin x Hx E). rewrite H in Hin. by apply elem_of_nil in Hin.
  - intros H. unfold slugOf. rewrite replaceNonAlnumRuns_nonalnum by done.
    by destruct (toLowerCase name).
Qed.

Lemma replaceNonAlnumRuns_fixed b s :
  Forall (fun c => (isLowerAlnum c || N.eqb c UNDERSCORE) = true) s ->
  (forall i, s !! i = Some UNDERSCORE -> s !! S i <> Some UNDERSCORE) ->
  (b = true -> head s <> Some UNDERSCORE) ->
  replaceNonAlnumRuns b s = s.
Proof.
  revert b; induction s as [|c s IH]; intros b Hc Hr Hh; [done|].
  apply Forall_cons in Hc as [Hc0 Hc]. simpl.
  destruct (isLowerAlnum c) eqn:E.
  - f_equal. apply IH; [done|by apply (runs_tail c)|discriminate].
  - simpl in Hc0. apply N.eqb_eq in Hc0. subst c.
    destruct b; [by destruct Hh|]. f_equal.
    apply IH; [done|by apply (runs_tail UNDERSCORE)|].
    intros _. rewrite head_lookup. by apply (Hr 0).
Qed.

Lemma stripEdgeUnderscores_fixed s :
  head s <> Some UNDERSCORE -> last s <> Some UNDERSCORE -> stripEdgeUnderscores s = s.
Proof.
  intros Hh Hl. unfold stripEdgeUnderscores.
  destruct s as [|c r]; [done|]. simpl in Hh.
  destruct (N.eqb c UNDERSCORE) eqn:E; [apply N.eqb_eq in E; congruence|].
  destruct (last (c :: r)) as [y|] eqn:Ely; [|done].
  destruct (N.eqb y UNDERSCORE) eqn:Ey; [apply N.eqb_eq in Ey; congruence|done].
Qed.

(** X11: computing the slug of a slug gives the slug back, when lower-casing
    leaves the slug unchanged. *)
Theorem slugOf_idempotent (toLowerCase : list N -> list N) (name : list N) :
  toLowerCase (slugOf toLowerCase name) = slugOf toLowerCase name ->
  slugOf toLowerCase (slugOf toLowerCase name) = slugOf toLowerCase name.
Proof.
  intros Hl. destruct (slugOf_spec toLowerCase name) as (Hc & Hr & Hh & Ht & _).
  unfold slugOf at 1. rewrite Hl.
  rewrite (replaceNonAlnumRuns_fixed false) by done.
  by apply stripEdgeUnderscores_fixed.
Qed.

Lemma slugOf_idempotent_witness :
  slugOf asciiLower (slugOf asciiLower [73; 110; 32; 82; 101; 118; 105; 101; 119; 33]%N) =
  slugOf asciiLower [73; 110; 32; 82; 101; 118; 105; 101; 119; 33]%N.
Proof. apply slugOf_idempotent. vm_compute. reflexivity. Defined.

Lemma forallb_false_Exists {A} (f : A -> bool) (l : list A) :
  forallb f l = false -> Exists (fun x => f x = false) l.
Proof.
  induction l as [|x l IH]; simpl; [discriminate|].
  destruct (f x) eqn:E; simpl; [intros H; right; by apply IH|intros _; by left].
Qed.

(** X12: [handleCreate] sends a request only for a name with a character
    other than white space; the request's slug is non-empty and made of
    [a-z], [0-9] and [_], and its position is the number of statuses. *)
Theorem handleCreate_request (toLowerCase : list N -> list N) (now name : list N)
    (color : string) (isDone : bool) (statuses : list ProjectStatus) (req : CreateStatusInput) :
  Forall (fun c => ((48 <=? c) && (c <=? 57))%N = true) now ->
  handleCreate toLowerCase now name color isDone statuses = Some req ->
  Exists (fun c => isJsWhitespace c = false) name /\ ci_name req = name /\
  ci_slug req <> [] /\
  Forall (fun c => (isLowerAlnum c || N.eqb c UNDERSCORE) = true) (ci_slug req) /\
  ci_position req = Z.of_nat (length statuses).
Proof.
  intros Hnow. unfold handleCreate.
  destruct (forallb isJsWhitespace name) eqn:E; [discriminate|].
  intros [= <-]. simpl.
  split; [by apply forallb_false_Exists|]. split; [done|].
  unfold createSlug.
  destruct (slugOf_spec toLowerCase name) as (Hc & _).
  destruct (slugOf toLowerCase name) as [|c l] eqn:Es.
  - split; [discriminate|]. split; [|done].
    apply Forall_app. split; [repeat constructor|].
    eapply Forall_impl; [exact Hnow|]. intros x Hx. cbv beta in Hx |- *.
    unfold isLowerAlnum. rewrite Hx. by rewrite orb_true_r, orb_true_l.
  - split; [discriminate|]. by split.
Qed.

Lemma handleCreate_request_witness :
  handleCreate asciiLower [49; 55; 48; 48]%N [32; 33]%N "#6B7280" false sample_cols =
    Some (mkCreateInput [32; 33]%N (STATUS_PREFIX ++ [49; 55; 48; 48]%N) "#6B7280" 0 3) /\
  ci_position (mkCreateInput [32; 33]%N (STATUS_PREFIX ++ [49; 55; 48; 48]%N) "#6B7280" 0 3) = 3%Z.
Proof.
  split; [reflexivity|].
  refine (proj2 (proj2 (proj2 (proj2 (handleCreate_request asciiLower [49; 55; 48; 48]%N
            [32; 33]%N "#6B7280" false sample_cols _ _ _))))).
  - repeat constructor.
  - reflexivity.
Defined.

(** ** The edit form *)

(** X13: opening a status for editing and saving it unchanged sends back its
    name, color and [isDone], when [isDone] is 0 or 1. *)
Theorem handleEdit_roundtrip (status : ProjectStatus) :
  (ps_isDone status = 0 \/ ps_isDone status = 1)%Z ->
  updateStatusInput (handleEdit status) =
    mkUpdateInput (ps_name status) (ps_color status) (ps_isDone status).
Proof. intros [H|H]; unfold updateStatusInput, handleEdit; simpl; by rewrite H. Qed.

Lemma handleEdit_roundtrip_witness :
  updateStatusInput (handleEdit (sample_status "done" "done" 2 1)) =
    mkUpdateInput "done" "#6B7280" 1.
Proof. apply (handleEdit_roundtrip (sample_status "done" "done" 2 1)). by right. Defined.

(** X14: a successful edit whose response keeps the identifier keeps the
    identifier order of the statuses and every other status, and closes the
    form; a failed edit changes nothing and keeps the form open. *)
Theorem handleSaveEdit_keeps_order (e : EditingStatus) (u : ProjectStatus)
    (statuses : list ProjectStatus) :
  ps_id u = es_id e ->
  map ps_id (fst (handleSaveEdit (Some e) (Some u) statuses)) = map ps_id statuses /\
  (forall i s, statuses !! i = Some s -> String.eqb (ps_id s) (es_id e) = false ->
     fst (handleSaveEdit (Some e) (Some u) statuses) !! i = Some s) /\
  snd (handleSaveEdit (Some e) (Some u) statuses) = None /\
  handleSaveEdit (Some e) None statuses = (statuses, Some e).
Proof.
  intros Hu. simpl. split; [|split; [|done]].
  - rewrite map_map. apply map_ext. intros s.
    destruct (String.eqb (ps_id s) (es_id e)) eqn:E; [|done].
    apply String.eqb_eq in E. congruence.
  - intros i s Hs E. rewrite lookup_map, Hs. simpl. by rewrite E.
Qed.

Lemma handleSaveEdit_keeps_order_witness :
  fst (handleSaveEdit (Some (handleEdit (sample_status "in_progress" "in_progress" 1 0)))
         (Some (sample_status "in_progress" "doing" 1 0)) sample_cols) =
    [sample_status "todo" "todo" 0 0; sample_status "in_progress" "doing" 1 0;
     sample_status "done" "done" 2 1] /\
  map ps_id (fst (handleSaveEdit (Some (handleEdit (sample_status "in_progress" "in_progress" 1 0)))
         (Some (sample_status "in_progress" "doing" 1 0)) sample_cols)) = map ps_id sample_cols.
Proof.
  split; [reflexivity|].
  apply (handleSaveEdit_keeps_order _ (sample_status "in_progress" "doing" 1 0)). reflexivity.
Defined.

(** ** Deleting a column *)

(** X15: after a column is deleted in the settings, a card whose [statusId]
    is the deleted column's is shown in the first remaining column. *)
Theorem deleted_column_cards_to_first_column (statusId : string)
    (statuses : list ProjectStatus) (tasks : list Task) (t : Task) :
  let cols := handleDelete statusId true true statuses in
  cols <> [] -> t ∈ tasks -> t_statusId t = Some statusId -> statusId <> "" ->
  exists c0 bucket, head cols = Some c0 /\
    tasksByStatusId cols tasks !! ps_id c0 = Some bucket /\ t ∈ bucket.
Proof.
  cbv zeta. intros Hne Ht Hsid Hnz.
  assert (Hnot : statusId ∉ map ps_id (handleDelete statusId true true statuses)).
  { intros Hin. apply list_elem_of_In, in_map_iff in Hin as (x & Hx & Hin).
    unfold handleDelete in Hin.
    destruct (find _ statuses) eqn:Ef; simpl in Hin.
    - apply filter_In in Hin as [_ Hq]. rewrite Hx, String.eqb_refl in Hq. discriminate.
    - apply list_elem_of_In in Hin.
      pose proof (find_None_false _ _ x Ef Hin) as Hf. simpl in Hf.
      rewrite Hx, String.eqb_refl in Hf. discriminate. }
  remember (handleDelete statusId true true statuses) as cols eqn:Ecols.
  clear Ecols. destruct cols as [|c0 cs]; [done|].
  assert (Hb : bucketOf (c0 :: cs) t = Some (ps_id c0)).
  { unfold bucketOf, resolveStatusId. rewrite Hsid.
    pose proof (proj2 (truthy_Some statusId) Hnz) as Htr.
    rewrite Htr. cbn iota beta. rewrite Htr, bool_decide_eq_false_2 by done.
    done. }
  exists c0, (filter (fun u => bucketOf (c0 :: cs) u = Some (ps_id c0)) tasks).
  split; [done|]. split.
  - rewrite tasksByStatusId_lookup, bool_decide_eq_true_2; [done|].
    apply elem_of_cons; by left.
  - apply list_elem_of_filter. by split.
Qed.

Lemma deleted_column_cards_to_first_column_witness :
  exists c0 bucket, head (handleDelete "todo" true true sample_cols) = Some c0 /\
    tasksByStatusId (handleDelete "todo" true true sample_cols) [legacy_card; todo_card]
      !! ps_id c0 = Some bucket /\ todo_card ∈ bucket.
Proof.
  apply (deleted_column_cards_to_first_column "todo" sample_cols [legacy_card; todo_card]
           todo_card).
  - discriminate.
  - apply elem_of_cons; right; apply elem_of_cons; by left.
  - reflexivity.
  - discriminate.
Defined.

(** ** The project page's [tasks] handlers *)

(** X16: a card added by [handleTaskCreate] is appended to the end of its
    column's list; the other columns are unchanged. *)
Theorem handleTaskCreate_appends_to_bucket (cols : list ProjectStatus) (task : Task)
    (tasks : list Task) (k : string) :
  bucketOf cols task = Some k ->
  tasksByStatusId cols (handleTaskCreate task tasks) !! k =
    (fun b => b ++ [task]) <$> tasksByStatusId cols tasks !! k /\
  (forall k', k' <> k ->
     tasksByStatusId cols (handleTaskCreate task tasks) !! k' = tasksByStatusId cols tasks !! k').
Proof.
  intros Hb. unfold handleTaskCreate. split.
  - rewrite !tasksByStatusId_lookup, bool_decide_eq_true_2 by (by eapply bucketOf_elem).
    simpl. rewrite filter_app. f_equal. f_equal. by rewrite filter_cons_True.
  - intros k' Hk'. rewrite !tasksByStatusId_lookup. case_bool_decide; [|done].
    rewrite filter_app. rewrite filter_cons_False by congruence. simpl.
    by rewrite app_nil_r.
Qed.

Lemma handleTaskCreate_appends_to_bucket_witness :
  tasksByStatusId sample_cols (handleTaskCreate legacy_card [todo_card]) !! "todo" =
    Some [todo_card; legacy_card].
Proof.
  rewrite (proj1 (handleTaskCreate_appends_to_bucket sample_cols legacy_card [todo_card] "todo"
                   eq_refl)).
  reflexivity.
Defined.

(** X17: after [handleTaskDelete], every column shows its previous cards
    except those with the deleted identifier, in the same order. *)
Theorem handleTaskDelete_buckets (cols : list ProjectStatus) (taskId : string)
    (tasks : list Task) (k : string) :
  tasksByStatusId cols (handleTaskDelete taskId tasks) !! k =
    List.filter (fun t => negb (String.eqb (t_id t) taskId)) <$> tasksByStatusId cols tasks !! k.
Proof.
  rewrite !tasksByStatusId_lookup. case_bool_decide; [|done].
  simpl. f_equal. apply filter_List_filter.
Qed.

(** X18: deleting a card just created with a fresh identifier gives back the
    previous task list. *)
Theorem handleTaskDelete_after_create (task : Task) (tasks : list Task) :
  t_id task ∉ map t_id tasks ->
  handleTaskDelete (t_id task) (handleTaskCreate task tasks) = tasks.
Proof.
  unfold handleTaskDelete, handleTaskCreate. induction tasks as [|x l IH]; intros Hn; simpl.
  - by rewrite String.eqb_refl.
  - destruct (String.eqb (t_id x) (t_id task)) eqn:E.
    + apply String.eqb_eq in E. exfalso. apply Hn. rewrite <- E. apply elem_of_cons; by left.
    + simpl. f_equal. apply IH. intros H. apply Hn. apply elem_of_cons; by right.
Qed.

Lemma handleTaskDelete_after_create_witness :
  handleTaskDelete "c1" (handleTaskCreate legacy_card [todo_card]) = [todo_card].
Proof.
  apply (handleTaskDelete_after_create legacy_card [todo_card]).
  simpl. intros H. apply elem_of_cons in H as [H|H]; [discriminate|by apply elem_of_nil in H].
Defined.
